(** * pyswf: the SWF container envelope of [swf/movie.py]

    A shallow embedding of [SWFHeader] and [SWF] (signature detection,
    header serialisation, the chunked codec loops, export gating), with the
    properties of the container specification stated over it.

    Python objects are records, attribute assignment is functional record
    update, and a raised exception is the [Err] branch of [result].  A method
    that writes to a file object returns the file it leaves behind together
    with its outcome, so that bytes written before an exception stay
    observable. *)

From Stdlib Require Import String.
From Stdlib Require Import ZArith List Bool Lia.
From Stdlib Require Import Strings.Byte.
From Equations Require Import Equations.
Import ListNotations.
Local Open Scope string_scope.
Local Open Scope list_scope.
Local Open Scope Z_scope.

(** ** Exceptions and results *)

Inductive exn :=
| SWFHeaderException (message : string)  (* class SWFHeaderException *)
| Exception (message : string)           (* raise Exception("...") *)
| TypeError                              (* non-callable called, wrong arity *)
| NameError                              (* unbound name *)
| AttributeError                         (* missing attribute / method *)
| StructError.                           (* short read in a fixed-width field *)

Inductive result (A : Type) :=
| Ok (a : A)
| Err (e : exn).
Arguments Ok {A} a.
Arguments Err {A} e.

Definition bind {A B} (r : result A) (k : A -> result B) : result B :=
  match r with
  | Ok a => k a
  | Err e => Err e
  end.

(** A computation on a mutable object of type [S]: the object as the
    computation leaves it, and the value returned or the exception raised. *)
Definition st (S A : Type) : Type := S -> S * result A.

Definition ret {S A} (a : A) : st S A := fun s => (s, Ok a).

Definition raise {S A} (e : exn) : st S A := fun s => (s, Err e).

Definition lift {S A} (r : result A) : st S A := fun s => (s, r).

Definition bind_st {S A B} (m : st S A) (k : A -> st S B) : st S B :=
  fun s =>
    match m s with
    | (s', Ok a) => k a s'
    | (s', Err e) => (s', Err e)
    end.

Definition get {S} : st S S := fun s => (s, Ok s).

Definition modify {S} (g : S -> S) : st S unit := fun s => (g s, Ok tt).

Declare Scope py_scope.
Delimit Scope py_scope with py.
Notation "x <- r ;; k" := (bind r (fun x => k))
  (at level 61, r at next level, right associativity) : py_scope.
Notation "x <~ m ;; k" := (bind_st m (fun x => k))
  (at level 61, m at next level, right associativity) : py_scope.
Notation "m ;; k" := (bind_st m (fun _ => k))
  (at level 61, right associativity) : py_scope.
Local Open Scope py_scope.

(** [o.attr] on an object reference that may be [None]. *)
Definition attr {A} (o : option A) : result A :=
  match o with
  | Some a => Ok a
  | None => Err AttributeError
  end.

(** The names the specification gives to the three failures the envelope
    raises itself. *)
Definition HeaderError : exn := SWFHeaderException "Invalid SWF Signature!".
Definition NotLoadedError : exn := Exception "This SWF was not loaded! (no data)".
Definition EmptyDocumentError : exn := Exception "This SWF doesn't contain any tags!".

(** ** Bytes and file objects *)

Definition bytes := list byte.

Definition ui8 (b : byte) : Z := Z.of_N (Byte.to_N b).

Definition byte_of_Z (v : Z) : byte :=
  match Byte.of_N (Z.to_N (Z.land v 0xFF)) with
  | Some b => b
  | None => x00
  end.

(** A seekable in-memory file ([io.BytesIO], or the file object handed to
    [SWF]): its whole content and the current position. *)
Record BytesIO := mkBytesIO {
  getvalue : bytes;
  tell : nat
}.

Definition BytesIO_new : BytesIO := mkBytesIO [] 0.

Definition BytesIO_of (content : bytes) : BytesIO := mkBytesIO content 0.

Definition unread (io : BytesIO) : bytes := skipn (tell io) (getvalue io).

(** [io.read(n)]: at most [n] bytes from the position, everything that is
    left when [n] is negative. *)
Definition read (io : BytesIO) (n : Z) : bytes * BytesIO :=
  let chunk := if n <? 0 then unread io else firstn (Z.to_nat n) (unread io) in
  (chunk, mkBytesIO (getvalue io) (tell io + length chunk)).

(** [io.write(data)]: overwrite from the position, growing the content; a
    position past the end is reached by zero bytes. *)
Definition write (io : BytesIO) (data : bytes) : BytesIO :=
  mkBytesIO
    (firstn (tell io) (getvalue io)
       ++ repeat x00 (tell io - length (getvalue io))
       ++ data
       ++ skipn (tell io + length data) (getvalue io))
    (tell io + length data).

Definition seek (io : BytesIO) (p : nat) : BytesIO := mkBytesIO (getvalue io) p.

(** ** The bit stream, [swf/stream.py] *)

Record SWFRectangle := mkRect {
  xmin : Z;
  xmax : Z;
  ymin : Z;
  ymax : Z
}.

(** [SWFStream(file)] wraps the file object as attribute [f]. *)
Record SWFStream := mkStream {
  f : BytesIO
}.

Module Stream.

(** Modelled from the spec: [swf/stream.py] is not part of the sources.
    The container layout fixes the primitives: unsigned 8-bit fields,
    unsigned 16- and 32-bit fields in little-endian order, the frame rate
    as a 16-bit field scaled by 256, and the rectangle as a 5-bit width
    followed by four signed fields of that width, padded to a whole byte.
    A field that runs past the end of the file raises. *)

Definition le (bs : bytes) : Z :=
  fold_right (fun b acc => ui8 b + 256 * acc) 0 bs.

Definition readBytes (n : nat) : st SWFStream bytes :=
  fun s =>
    let '(chunk, io) := read (f s) (Z.of_nat n) in
    (mkStream io,
     if (length chunk =? n)%nat then Ok chunk else Err StructError).

Definition readUI8 : st SWFStream Z := bs <~ readBytes 1 ;; ret (le bs).

Definition readUI16 : st SWFStream Z := bs <~ readBytes 2 ;; ret (le bs).

Definition readUI32 : st SWFStream Z := bs <~ readBytes 4 ;; ret (le bs).

(** The 8.8 fixed-point rate is kept as its 16-bit numerator: the value
    read is [n / 256]. *)
Definition readFIXED8 : st SWFStream Z := readUI16.

Definition bits_of_byte (b : byte) : list bool :=
  map (fun i => Z.testbit (ui8 b) (Z.of_nat i)) [7; 6; 5; 4; 3; 2; 1; 0]%nat.

Definition bits_of (bs : bytes) : list bool := flat_map bits_of_byte bs.

(** Unsigned value of a most-significant-first bit string. *)
Definition ub (bits : list bool) : Z :=
  fold_left (fun acc (b : bool) => 2 * acc + (if b then 1 else 0)) bits 0.

(** Two's complement value of the same. *)
Definition sb (bits : list bool) : Z :=
  match bits with
  | true :: _ => ub bits - 2 ^ Z.of_nat (length bits)
  | _ => ub bits
  end.

(** Bytes a rectangle occupies when its first byte is [b0]. *)
Definition rect_size (b0 : byte) : nat :=
  let nbits := Z.to_nat (Z.shiftr (ui8 b0) 3) in
  (5 + 4 * nbits + 7) / 8.

Definition decodeRECT (bs : bytes) : SWFRectangle :=
  let bits := bits_of bs in
  let nbits := Z.to_nat (ub (firstn 5 bits)) in
  let field i := sb (firstn nbits (skipn (5 + i * nbits) bits)) in
  mkRect (field 0%nat) (field 1%nat) (field 2%nat) (field 3%nat).

Definition readRECT : st SWFStream SWFRectangle :=
  fun s =>
    match unread (f s) with
    | [] => (s, Err StructError)
    | b0 :: _ => (bs <~ readBytes (rect_size b0) ;; ret (decodeRECT bs)) s
    end.

(** The writers put one fixed-width field into [file]; a value wider than
    the field is truncated to it. *)
Definition writeUI8 (s : SWFStream) (v : Z) : st BytesIO unit :=
  modify (fun file => write file [byte_of_Z v]).

Definition writeUI16 (s : SWFStream) (v : Z) : st BytesIO unit :=
  modify (fun file => write file [byte_of_Z v; byte_of_Z (Z.shiftr v 8)]).

Definition writeUI32 (s : SWFStream) (v : Z) : st BytesIO unit :=
  modify (fun file =>
            write file [byte_of_Z v; byte_of_Z (Z.shiftr v 8);
                        byte_of_Z (Z.shiftr v 16); byte_of_Z (Z.shiftr v 24)]).

Definition writeFIXED8 (s : SWFStream) (v : Z) : st BytesIO unit :=
  writeUI16 s v.

End Stream.

(** ** [class SWFHeader] *)

Record SWFHeader := mkHeader {
  _version : Z;
  _compressed_zlib : bool;
  _compressed_lzma : bool;
  _file_length : Z;
  (* assigned through the setters only *)
  _frame_size : option SWFRectangle;
  _frame_rate : option Z;
  _frame_count : option Z
}.

Module Header.

(** [x in [...]] on integers. *)
Definition mem (x : Z) (l : list Z) : bool := existsb (Z.eqb x) l.

(** [SWFHeader.__init__(self, stream)], a computation on the stream it
    reads from. *)
Definition init : st SWFStream SWFHeader :=
  a <~ Stream.readUI8 ;;
  b <~ Stream.readUI8 ;;
  c <~ Stream.readUI8 ;;
  version <~ Stream.readUI8 ;;
  flags <~
    (if version >? 0x06 then
       if negb (mem a [0x46; 0x43; 0x5A]) || negb (b =? 0x57) || negb (c =? 0x53)
       then raise (SWFHeaderException "Invalid SWF Signature!")
       else ret (a =? 0x43, a =? 0x5A)
     else
       if negb (a =? 0x43) || negb (b =? 0x57) || negb (mem c [0x53; 0x43; 0x5A])
       then raise (SWFHeaderException "Invalid SWF Signature!")
       else ret (c =? 0x43, c =? 0x5A)) ;;
  file_length <~ Stream.readUI32 ;;
  ret (mkHeader version (fst flags) (snd flags) file_length None None None).

(** [SWFHeader.save(self, file, stream)], a computation on [file]. *)
Definition save (self : SWFHeader) (stream : option SWFStream)
  : st BytesIO unit :=
  if _version self >? 0x06 then
    stream <~ lift (attr stream) ;;
    (if _compressed_zlib self then Stream.writeUI8 stream 0x43
     else if _compressed_lzma self then Stream.writeUI8 stream 0x5A
     else Stream.writeUI8 stream 0x46) ;;
    Stream.writeUI8 stream (_version self) ;;
    Stream.writeUI32 stream (_file_length self)
  else ret tt.

(** Properties and setters. *)
Definition frame_size (self : SWFHeader) : result SWFRectangle :=
  attr (_frame_size self).

Definition set_frame_size (self : SWFHeader) (new_frame_size : SWFRectangle) :=
  mkHeader (_version self) (_compressed_zlib self) (_compressed_lzma self)
    (_file_length self) (Some new_frame_size) (_frame_rate self)
    (_frame_count self).

Definition frame_rate (self : SWFHeader) : result Z := attr (_frame_rate self).

Definition set_frame_rate (self : SWFHeader) (new_frame_rate : Z) :=
  mkHeader (_version self) (_compressed_zlib self) (_compressed_lzma self)
    (_file_length self) (_frame_size self) (Some new_frame_rate)
    (_frame_count self).

Definition frame_count (self : SWFHeader) : result Z := attr (_frame_count self).

Definition set_frame_count (self : SWFHeader) (new_frame_count : Z) :=
  mkHeader (_version self) (_compressed_zlib self) (_compressed_lzma self)
    (_file_length self) (_frame_size self) (_frame_rate self)
    (Some new_frame_count).

Definition file_length (self : SWFHeader) : Z := _file_length self.

Definition version (self : SWFHeader) : Z := _version self.

Definition compressed (self : SWFHeader) : bool :=
  _compressed_zlib self || _compressed_lzma self.

Definition compressed_zlib (self : SWFHeader) : bool := _compressed_zlib self.

Definition compressed_lzma (self : SWFHeader) : bool := _compressed_lzma self.

End Header.

(** ** Collaborators of [class SWF] *)

(** Modelled from the spec: [swf/tag.py] is not part of the sources.  A tag
    is an opaque typed record; [SWFTimelineContainer] holds the ordered tag
    sequence, empty on construction. *)
Record Tag := mkTag {
  tag_type : Z;
  tag_body : bytes
}.

Record SWF := mkSWF {
  tags : list Tag;               (* SWFTimelineContainer.tags *)
  _chunk_size : Z;
  _data : option SWFStream;
  _header : option SWFHeader
}.

(** The Python values that reach the codec loops. *)
Inductive pyobject :=
| ObjSWF (o : SWF)
| ObjFile (o : BytesIO)
| ZlibCompress                                (* zlib.compressobj() *)
| ZlibDecompress                              (* zlib.decompressobj() *)
| Function (fn : bytes -> result bytes).      (* pylzma.compress / decompress *)

(** [o(arg)]: only functions are callable; the zlib codec objects offer
    methods, not a call. *)
Definition call (o : pyobject) (arg : bytes) : result bytes :=
  match o with
  | Function fn => fn arg
  | _ => Err TypeError
  end.

(** [b()] where [b] is the boolean a property returned. *)
Definition call_bool (b : bool) : result bool := Err TypeError.

(** [o.read]: only file objects have it. *)
Definition as_file (o : pyobject) : result BytesIO :=
  match o with
  | ObjFile io => Ok io
  | _ => Err AttributeError
  end.

(** Binding the arguments of a call to a [def] with two parameters. *)
Definition params2 (args : list pyobject) : result (pyobject * pyobject) :=
  match args with
  | [a; b] => Ok (a, b)
  | _ => Err TypeError
  end.

(** The name [self] inside a function that has no such parameter: the
    module defines no global of that name. *)
Definition global_self : result SWF := Err NameError.

(** ** The chunked codec loop *)

Definition inspect {A} (a : A) : {b : A | a = b} := exist _ a eq_refl.

(** The loop shared by [compress] and [decompress]:
    read a chunk; while it is not empty, pass it to the codec, append what
    comes back to the output, read the next; rewind the output. *)
Equations codec_loop (chunk_size : Z) (method : pyobject)
  (input_buffer output_buffer : BytesIO) : result BytesIO
  by wf (length (unread input_buffer)) lt :=
codec_loop chunk_size method input_buffer output_buffer
  with inspect (fst (read input_buffer chunk_size)) := {
  | exist _ [] _ => Ok (seek output_buffer 0)
  | exist _ (b :: chunk) E =>
      match call method (b :: chunk) with
      | Ok data =>
          codec_loop chunk_size method (snd (read input_buffer chunk_size))
            (write output_buffer data)
      | Err e => Err e
      end }.
Next Obligation.
  revert E; unfold read, unread; cbn [fst snd getvalue tell]; intros E.
  rewrite Nat.add_comm, <- skipn_skipn, E, length_skipn.
  assert (H : (length (b :: chunk)
               <= length (skipn (tell input_buffer) (getvalue input_buffer)))%nat).
  { rewrite <- E. destruct (chunk_size <? 0); [lia | rewrite length_firstn; lia]. }
  cbn [length] in *. lia.
Defined.

(** ** [class SWF] *)

Definition set_data (d : option SWFStream) : st SWF unit :=
  modify (fun self => mkSWF (tags self) (_chunk_size self) d (_header self)).

Definition set_header (h : option SWFHeader) : st SWF unit :=
  modify (fun self => mkSWF (tags self) (_chunk_size self) (_data self) h).

(** [self._header], for reading. *)
Definition the_header : st SWF SWFHeader :=
  fun self => (self, attr (_header self)).

(** A stream method called on [self._data]: the stream object is shared, so
    [self._data] sees every read. *)
Definition on_data {A} (m : st SWFStream A) : st SWF A :=
  fun self =>
    match _data self with
    | None => (self, Err AttributeError)
    | Some d => let '(d', r) := m d in (fst (set_data (Some d') self), r)
    end.

(** A setter called on [self._header]. *)
Definition on_header (g : SWFHeader -> SWFHeader) : st SWF unit :=
  fun self =>
    match _header self with
    | None => (self, Err AttributeError)
    | Some h => set_header (Some (g h)) self
    end.

(** The two file objects [save] writes to.  [output_buffer] is either a
    [BytesIO] of its own or another name of [file]. *)
Record sinks := mkSinks {
  file : BytesIO;
  output_buffer : option BytesIO     (* [None]: [output_buffer is file] *)
}.

Definition to_file {A} (m : st BytesIO A) : st sinks A :=
  fun s => let '(io, r) := m (file s) in (mkSinks io (output_buffer s), r).

Definition to_output {A} (m : st BytesIO A) : st sinks A :=
  fun s =>
    match output_buffer s with
    | None => to_file m s
    | Some b => let '(io, r) := m b in (mkSinks (file s) (Some io), r)
    end.

Definition the_output : st sinks BytesIO :=
  fun s =>
    (s, Ok match output_buffer s with None => file s | Some b => b end).

Definition set_output (b : option BytesIO) : st sinks unit :=
  modify (fun s => mkSinks (file s) b).

Section Envelope.

(** What [swf/export.py], [swf/stream.py], [swf/tag.py] and [pylzma]
    provide and the sources do not contain. *)
Variable Rendered : Type.
Variable SVGExporter : SWF -> bool -> result Rendered.
Variable writeRECT : SWFStream -> SWFRectangle -> st BytesIO unit.
Variable save_tags : SWF -> SWFStream -> st BytesIO unit.
Variables pylzma_compress pylzma_decompress : bytes -> result bytes.

(** [def decompress(decompress_method, input_buffer)]. *)
Definition decompress (args : list pyobject) : result BytesIO :=
  p <- params2 args ;;
  input_buffer <- as_file (snd p) ;;
  self <- global_self ;;
  codec_loop (_chunk_size self) (fst p) input_buffer BytesIO_new.

(** [def compress(compress_method, input_buffer)]. *)
Definition compress (args : list pyobject) : result BytesIO :=
  p <- params2 args ;;
  input_buffer <- as_file (snd p) ;;
  self <- global_self ;;
  codec_loop (_chunk_size self) (fst p) input_buffer BytesIO_new.

(** [self.decompress(m, b)] and [self.compress(m, b)] are calls through the
    instance: [self] is passed first. *)
Definition decompress_zlib (self : SWF) : result BytesIO :=
  let decompress_method := ZlibDecompress in
  data <- attr (_data self) ;;
  decompress [ObjSWF self; decompress_method; ObjFile (f data)].

Definition decompress_lzma (self : SWF) : result BytesIO :=
  data <- attr (_data self) ;;
  decompress [ObjSWF self; Function pylzma_decompress; ObjFile (f data)].

Definition compress_zlib (self : SWF) (input_buffer : BytesIO) : result BytesIO :=
  let compress_method := ZlibCompress in
  compress [ObjSWF self; compress_method; ObjFile input_buffer].

Definition compress_lzma (self : SWF) (input_buffer : BytesIO) : result BytesIO :=
  compress [ObjSWF self; Function pylzma_compress; ObjFile input_buffer].

(** [SWF.parse(self, data)]; [data] is a stream or a file object. *)
Definition parse (data : SWFStream + BytesIO) : st SWF unit :=
  set_data (Some match data with inl s => s | inr file => mkStream file end) ;;
  header <~ on_data Header.init ;;
  set_header (Some header) ;;
  header <~ the_header ;;
  (if Header.compressed header then
     if Header.compressed_zlib header then
       io <~ (fun self => (self, decompress_zlib self)) ;;
       set_data (Some (mkStream io))
     else
       io <~ (fun self => (self, decompress_lzma self)) ;;
       set_data (Some (mkStream io))
   else ret tt) ;;
  frame_size <~ on_data Stream.readRECT ;;
  on_header (fun h => Header.set_frame_size h frame_size) ;;
  frame_rate <~ on_data Stream.readFIXED8 ;;
  on_header (fun h => Header.set_frame_rate h frame_rate) ;;
  frame_count <~ on_data Stream.readUI16 ;;
  on_header (fun h => Header.set_frame_count h frame_count).
  (* self.parse_tags(self._data) is commented out *)

(** [SWF.__init__(self, file=None, chunk_size=4096)]. *)
Definition SWF_init (file : option BytesIO) (chunk_size : option Z) : result SWF :=
  let chunk_size := match chunk_size with Some c => c | None => 4096 end in
  let self := mkSWF [] 4096 None None in
  let self := fst (set_data (option_map mkStream file) self) in
  match _data self with
  | None => Ok self
  | Some data =>
      match parse (inl data) self with
      | (self, Ok _) => Ok self
      | (_, Err e) => Err e
      end
  end.

(** [SWF.export(self, exporter=None, force_stroke=False)]. *)
Definition export (self : SWF) (exporter : option (SWF -> bool -> result Rendered))
  (force_stroke : bool) : result Rendered :=
  let exporter := match exporter with None => SVGExporter | Some e => e end in
  match _data self with
  | None => Err (Exception "This SWF was not loaded! (no data)")
  | Some _ =>
      if (length (tags self) =? 0)%nat
      then Err (Exception "This SWF doesn't contain any tags!")
      else exporter self force_stroke
  end.

(** [SWF.save(self, file)], a computation on [file]. *)
Definition save (self : SWF) : st BytesIO unit :=
  fun file0 =>
    let body : st sinks unit :=
      header <~ lift (attr (_header self)) ;;
      to_file (Header.save header (_data self)) ;;
      buffered <~ lift (call_bool (Header.compressed header)) ;;
      (if buffered then set_output (Some BytesIO_new) else set_output None) ;;
      data <~ lift (attr (_data self)) ;;
      frame_size <~ lift (Header.frame_size header) ;;
      to_output (writeRECT data frame_size) ;;
      frame_rate <~ lift (Header.frame_rate header) ;;
      to_output (Stream.writeFIXED8 data frame_rate) ;;
      frame_count <~ lift (Header.frame_count header) ;;
      to_output (Stream.writeUI16 data frame_count) ;;
      to_output (save_tags self data) ;;
      buffered <~ lift (call_bool (Header.compressed header)) ;;
      if buffered then
        zlib <~ lift (call_bool (Header.compressed_zlib header)) ;;
        plain <~ the_output ;;
        packed <~ lift (if zlib then compress_zlib self plain
                        else compress_lzma self plain) ;;
        let data_chunk := fst (read packed (_chunk_size self)) in
        set_output (Some (snd (read packed (_chunk_size self)))) ;;
        match data_chunk with
        | [] => ret tt
        | _ :: _ =>
            (* the first pass of the loop writes the chunk, then asks the
               chunk itself, a bytes value, for [read] *)
            to_file (modify (fun io => write io data_chunk)) ;;
            raise AttributeError
        end
      else ret tt in
    let '(s, r) := body (mkSinks file0 None) in
    (file s, r).

End Envelope.

(** ** The signature mapping of the specification *)

Inductive compression := no_compression | zlib | lzma.

(** The kind a header records, in the order [SWFHeader.save] tests the
    flags. *)
Definition kind_of (h : SWFHeader) : compression :=
  if _compressed_zlib h then zlib
  else if _compressed_lzma h then lzma
  else no_compression.

(** The table of the specification: for [version > 6] the triple is
    (marker, 'W', 'S') with marker 'F', 'C' or 'Z'; for [version <= 6] it is
    ('F', 'W', marker) with marker 'S', 'C' or 'Z'. *)
Definition signature_mapping (modern : bool)
  : list (byte * byte * byte * compression) :=
  if modern then
    [ ("F"%byte, "W"%byte, "S"%byte, no_compression);
      ("C"%byte, "W"%byte, "S"%byte, zlib);
      ("Z"%byte, "W"%byte, "S"%byte, lzma) ]
  else
    [ ("F"%byte, "W"%byte, "S"%byte, no_compression);
      ("F"%byte, "W"%byte, "C"%byte, zlib);
      ("F"%byte, "W"%byte, "Z"%byte, lzma) ].

Fixpoint lookup_signature (table : list (byte * byte * byte * compression))
  (a b c : byte) : option compression :=
  match table with
  | [] => None
  | (a', b', c', k) :: table =>
      if Byte.eqb a a' && Byte.eqb b b' && Byte.eqb c c' then Some k
      else lookup_signature table a b c
  end.

(** The two flags of a header, as a pair. *)
Definition flags (h : SWFHeader) : bool * bool :=
  (_compressed_zlib h, _compressed_lzma h).

(** A file positioned behind its last byte, as one opened for writing is. *)
Definition at_end (io : BytesIO) : Prop := tell io = length (getvalue io).

(** A zlib-compressed file as [parse] leaves the document: the header is
    set, the data is the raw stream behind the header, and [parse] itself
    has raised in [decompress_zlib]. *)
Definition cws_input : bytes :=
  ["C"; "W"; "S"; x08; x10; x00; x00; x00; x78; x9c]%byte.

Definition cws_document : SWF * result unit :=
  parse (fun chunk => Ok chunk) (inr (BytesIO_of cws_input))
    (mkSWF [] 4096 None None).

(** The exporter [export] ends up with: the one supplied, the SVG exporter
    when none is. *)
Definition chosen {Rendered : Type} (SVGExporter : SWF -> bool -> result Rendered)
  (exporter : option (SWF -> bool -> result Rendered))
  : SWF -> bool -> result Rendered :=
  match exporter with
  | None => SVGExporter
  | Some e => e
  end.

(** What the constructor fixes and no method assigns: the tag list and the
    chunk size. *)
Definition configuration (self : SWF) : list Tag * Z :=
  (tags self, _chunk_size self).

(** A method that leaves tags and chunk size alone, whether it returns or
    raises. *)
Definition keeps_configuration {A} (m : st SWF A) : Prop :=
  forall self, configuration (fst (m self)) = configuration self.

(** A method that leaves a document with data a document with data. *)
Definition keeps_loaded {A} (m : st SWF A) : Prop :=
  forall self, _data self <> None -> _data (fst (m self)) <> None.

(** The legacy signatures as the code tests them: for [version <= 6] the
    first byte is compared with 0x43, the second with 0x57, the third with
    0x53, 0x43 and 0x5A, and the third byte gives the flags. *)
Definition legacy_mapping_as_coded : list (byte * byte * byte * compression) :=
  [ ("C"%byte, "W"%byte, "S"%byte, no_compression);
    ("C"%byte, "W"%byte, "C"%byte, zlib);
    ("C"%byte, "W"%byte, "Z"%byte, lzma) ].

(** ** The pieces a chunked read hands out *)

(** A buffer cut into consecutive pieces of [n] bytes, the last one
    possibly shorter; [fuel] bounds the number of pieces. *)
Fixpoint chunks_upto (fuel n : nat) (l : bytes) : list bytes :=
  match fuel, l with
  | S fuel, _ :: _ => firstn n l :: chunks_upto fuel n (skipn n l)
  | _, _ => []
  end.

Definition chunks (n : nat) (l : bytes) : list bytes :=
  chunks_upto (length l) n l.

(** What successive [read(chunk_size)] calls return before the first empty
    result: everything at once for a negative size, nothing for size 0. *)
Definition pieces (chunk_size : Z) (l : bytes) : list bytes :=
  if chunk_size <? 0 then match l with [] => [] | _ :: _ => [l] end
  else if chunk_size =? 0 then []
  else chunks (Z.to_nat chunk_size) l.

(** A callable applied to the pieces in order, the results appended to
    [acc]; the first exception ends it. *)
Fixpoint feed (fn : bytes -> result bytes) (cs : list bytes) (acc : bytes)
  : result bytes :=
  match cs with
  | [] => Ok acc
  | c :: cs =>
      match fn c with
      | Ok data => feed fn cs (acc ++ data)
      | Err e => Err e
      end
  end.

(** The rewound [BytesIO] the loop returns. *)
Definition rewound (r : result bytes) : result BytesIO :=
  match r with
  | Ok content => Ok (mkBytesIO content 0)
  | Err e => Err e
  end.

(** ** Bytes and reads *)

Lemma ui8_inj (a b : byte) : ui8 a = ui8 b -> a = b.
Proof.
  unfold ui8; intros H. apply N2Z.inj in H.
  assert (E : Byte.of_N (Byte.to_N a) = Byte.of_N (Byte.to_N b)) by now rewrite H.
  rewrite !Byte.of_to_N in E. now injection E.
Qed.

Lemma ui8_eqb (a b : byte) : (ui8 a =? ui8 b) = Byte.eqb a b.
Proof.
  destruct (Byte.eqb a b) eqn:E.
  - apply Byte.byte_dec_bl in E. subst. apply Z.eqb_refl.
  - apply Byte.eqb_false in E. apply Z.eqb_neq. intros H. now apply E, ui8_inj.
Qed.

Lemma ui8_range (b : byte) : 0 <= ui8 b < 256.
Proof.
  unfold ui8. pose proof (Byte.to_N_bounded b). lia.
Qed.

Lemma byte_of_ui8 (b : byte) : byte_of_Z (ui8 b) = b.
Proof.
  unfold byte_of_Z.
  replace (Z.land (ui8 b) 0xFF) with (ui8 b).
  - unfold ui8. now rewrite N2Z.id, Byte.of_to_N.
  - change 0xFF with (Z.ones 8). rewrite Z.land_ones by lia.
    symmetry. apply Z.mod_small. apply ui8_range.
Qed.

Lemma byte_of_Z_mod (v : Z) : byte_of_Z v = byte_of_Z (v mod 256).
Proof.
  unfold byte_of_Z. change 0xFF with (Z.ones 8).
  rewrite !Z.land_ones by lia. change (2 ^ 8) with 256.
  now rewrite Z.mod_mod by lia.
Qed.

(** A read that finds its bytes returns them and leaves the rest unread. *)
Lemma readBytes_unread (s : SWFStream) (bs post : bytes) :
  unread (f s) = bs ++ post ->
  exists s', Stream.readBytes (length bs) s = (s', Ok bs)
             /\ unread (f s') = post.
Proof.
  intros H. unfold Stream.readBytes, read.
  assert ((Z.of_nat (length bs) <? 0) = false) as -> by (apply Z.ltb_ge; lia).
  rewrite Nat2Z.id, H, firstn_app, firstn_all, Nat.sub_diag, app_nil_r.
  rewrite Nat.eqb_refl. eexists; split; [reflexivity|].
  unfold unread in *; cbn [f getvalue tell].
  now rewrite Nat.add_comm, <- skipn_skipn, H, skipn_app, skipn_all,
    Nat.sub_diag.
Qed.

Lemma readUI8_unread (s : SWFStream) (b : byte) (post : bytes) :
  unread (f s) = b :: post ->
  exists s', Stream.readUI8 s = (s', Ok (ui8 b)) /\ unread (f s') = post.
Proof.
  intros H. destruct (readBytes_unread s [b] post H) as (s' & E & U).
  exists s'. split; [|exact U].
  unfold Stream.readUI8, bind_st. cbn [length] in E. rewrite E.
  unfold ret, Stream.le; cbn [fold_right]. do 2 f_equal. lia.
Qed.

Lemma readUI16_unread (s : SWFStream) (b0 b1 : byte) (post : bytes) :
  unread (f s) = b0 :: b1 :: post ->
  exists s', Stream.readUI16 s = (s', Ok (Stream.le [b0; b1]))
             /\ unread (f s') = post.
Proof.
  intros H. destruct (readBytes_unread s [b0; b1] post H) as (s' & E & U).
  exists s'. split; [|exact U].
  unfold Stream.readUI16, bind_st. cbn [length] in E. now rewrite E.
Qed.

Lemma readUI32_unread (s : SWFStream) (b0 b1 b2 b3 : byte) (post : bytes) :
  unread (f s) = b0 :: b1 :: b2 :: b3 :: post ->
  exists s', Stream.readUI32 s = (s', Ok (Stream.le [b0; b1; b2; b3]))
             /\ unread (f s') = post.
Proof.
  intros H.
  destruct (readBytes_unread s [b0; b1; b2; b3] post H) as (s' & E & U).
  exists s'. split; [|exact U].
  unfold Stream.readUI32, bind_st. cbn [length] in E. now rewrite E.
Qed.

(** A read that runs past the end raises. *)
Lemma readBytes_short (s : SWFStream) (n : nat) :
  (length (unread (f s)) < n)%nat ->
  snd (Stream.readBytes n s) = Err StructError.
Proof.
  intros H. unfold Stream.readBytes, read.
  assert ((Z.of_nat n <? 0) = false) as -> by (apply Z.ltb_ge; lia).
  rewrite Nat2Z.id. cbn [snd].
  rewrite length_firstn, Nat.min_r by lia.
  destruct (Nat.eqb_spec (length (unread (f s))) n); [lia | reflexivity].
Qed.

Lemma bind_st_ok {S A B} (m : st S A) (k : A -> st S B) s s' a :
  m s = (s', Ok a) -> bind_st m k s = k a s'.
Proof. unfold bind_st. now intros ->. Qed.

Lemma bind_st_err {S A B} (m : st S A) (k : A -> st S B) s s' e :
  m s = (s', Err e) -> bind_st m k s = (s', Err e).
Proof. unfold bind_st. now intros ->. Qed.

(** The only exception a fixed-width read raises is [StructError]. *)
Lemma readUI32_outcome (s : SWFStream) :
  (exists v, snd (Stream.readUI32 s) = Ok v)
  \/ snd (Stream.readUI32 s) = Err StructError.
Proof.
  unfold Stream.readUI32, bind_st, Stream.readBytes.
  destruct (read (f s) (Z.of_nat 4)) as [chunk io].
  destruct (length chunk =? 4)%nat; cbn; eauto.
Qed.

(** ** [SWFHeader.__init__] after its four leading reads *)

(** What [Header.init] does once signature and version are known: the
    version test, the signature test of that branch, the length. *)
Lemma init_after_signature (s : SWFStream) (a b c v : byte) (rest : bytes) :
  unread (f s) = a :: b :: c :: v :: rest ->
  exists s4, unread (f s4) = rest /\
    Header.init s =
      bind_st
        (if ui8 v >? 0x06 then
           if negb (Header.mem (ui8 a) [0x46; 0x43; 0x5A])
              || negb (ui8 b =? 0x57) || negb (ui8 c =? 0x53)
           then raise (SWFHeaderException "Invalid SWF Signature!")
           else ret (ui8 a =? 0x43, ui8 a =? 0x5A)
         else
           if negb (ui8 a =? 0x43) || negb (ui8 b =? 0x57)
              || negb (Header.mem (ui8 c) [0x53; 0x43; 0x5A])
           then raise (SWFHeaderException "Invalid SWF Signature!")
           else ret (ui8 c =? 0x43, ui8 c =? 0x5A))
        (fun flags =>
           bind_st Stream.readUI32
             (fun file_length =>
                ret (mkHeader (ui8 v) (fst flags) (snd flags) file_length
                       None None None))) s4.
Proof.
  intros U.
  destruct (readUI8_unread s a _ U) as (s1 & E1 & U1).
  destruct (readUI8_unread s1 b _ U1) as (s2 & E2 & U2).
  destruct (readUI8_unread s2 c _ U2) as (s3 & E3 & U3).
  destruct (readUI8_unread s3 v _ U3) as (s4 & E4 & U4).
  exists s4. split; [exact U4|].
  unfold Header.init.
  rewrite (bind_st_ok _ _ _ _ _ E1), (bind_st_ok _ _ _ _ _ E2),
    (bind_st_ok _ _ _ _ _ E3), (bind_st_ok _ _ _ _ _ E4).
  reflexivity.
Qed.

(** The code's integer tests, as tests on the bytes read. *)
Lemma mem_ui8 (a x y z : byte) :
  Header.mem (ui8 a) [ui8 x; ui8 y; ui8 z]
  = Byte.eqb a x || Byte.eqb a y || Byte.eqb a z.
Proof.
  unfold Header.mem; cbn [existsb]. rewrite !ui8_eqb.
  now rewrite orb_false_r, orb_assoc.
Qed.

Ltac bytes_tests :=
  change 0x46 with (ui8 "F"); change 0x43 with (ui8 "C");
  change 0x5A with (ui8 "Z"); change 0x57 with (ui8 "W");
  change 0x53 with (ui8 "S");
  rewrite ?mem_ui8, ?ui8_eqb.

Ltac split_byte_tests :=
  repeat match goal with
         | |- context [Byte.eqb ?x ?y] =>
             let E := fresh "E" in
             destruct (Byte.eqb x y) eqn:E;
             [apply Byte.byte_dec_bl in E; subst x | ]
         end.

(** C6: for a version byte above 6, [SWFHeader.__init__] raises the
    invalid-signature exception exactly on the byte triples outside the
    table (marker, 'W', 'S'), marker 'F', 'C' or 'Z'; on a triple of the
    table it never raises that exception, and with the four length bytes
    present it returns a header of the kind the table gives (none, zlib,
    lzma), with the version and the little-endian length read. *)
Theorem modern_signature_exhaustive
  (s : SWFStream) (a b c v : byte) (rest : bytes) :
  unread (f s) = a :: b :: c :: v :: rest ->
  6 < ui8 v ->
  match lookup_signature (signature_mapping true) a b c with
  | None => snd (Header.init s) = Err HeaderError
  | Some k =>
      snd (Header.init s) <> Err HeaderError
      /\ forall l0 l1 l2 l3 post,
          rest = l0 :: l1 :: l2 :: l3 :: post ->
          exists s' h,
            Header.init s = (s', Ok h)
            /\ kind_of h = k
            /\ _version h = ui8 v
            /\ _file_length h = Stream.le [l0; l1; l2; l3]
            /\ unread (f s') = post
  end.
Proof.
  intros U V.
  destruct (init_after_signature s a b c v rest U) as (s4 & U4 & ->).
  assert ((ui8 v >? 6) = true) as -> by (apply Z.gtb_lt; lia).
  assert (accepted : forall zl lz k,
    snd (bind_st (ret (zl, lz))
           (fun flags =>
              bind_st Stream.readUI32
                (fun file_length =>
                   ret (mkHeader (ui8 v) (fst flags) (snd flags) file_length
                          None None None))) s4) <> Err HeaderError
    /\ (kind_of (mkHeader (ui8 v) zl lz 0 None None None) = k ->
        forall l0 l1 l2 l3 post,
          rest = l0 :: l1 :: l2 :: l3 :: post ->
          exists s' h,
            bind_st (ret (zl, lz))
              (fun flags =>
                 bind_st Stream.readUI32
                   (fun file_length =>
                      ret (mkHeader (ui8 v) (fst flags) (snd flags)
                             file_length None None None))) s4 = (s', Ok h)
            /\ kind_of h = k
            /\ _version h = ui8 v
            /\ _file_length h = Stream.le [l0; l1; l2; l3]
            /\ unread (f s') = post)).
  { intros zl lz k. split.
    - unfold bind_st at 1, ret at 1. unfold bind_st.
      destruct (readUI32_outcome s4) as [[x H] | H];
        destruct (Stream.readUI32 s4) as [s5 [x'|e]]; cbn in *;
        unfold HeaderError; congruence.
    - intros K l0 l1 l2 l3 post ->.
      destruct (readUI32_unread s4 _ _ _ _ _ U4) as (s8 & E8 & U8).
      exists s8. eexists. unfold bind_st at 1, ret at 1.
      rewrite (bind_st_ok _ _ _ _ _ E8). unfold ret.
      repeat split; [exact K | exact U8]. }
  bytes_tests. cbn [signature_mapping lookup_signature].
  split_byte_tests; cbn [negb orb andb Byte.eqb];
    try reflexivity;
    (split; [apply (accepted _ _ no_compression)
            | apply accepted; reflexivity]).
Qed.

Lemma modern_signature_exhaustive_witness :
  let s := mkStream (BytesIO_of ["C"; "W"; "S"; x08; x10; x00; x00; x00]%byte) in
  unread (f s) = ["C"; "W"; "S"; x08; x10; x00; x00; x00]%byte
  /\ 6 < ui8 x08
  /\ snd (Header.init s) <> Err HeaderError.
Proof.
  intros s. split; [reflexivity | split; [reflexivity | ]].
  exact (proj1 (modern_signature_exhaustive s "C" "W" "S" x08
                  [x10; x00; x00; x00]%byte eq_refl eq_refl)).
Defined.

(** What the legacy branch accepts: for a version byte of 6 or less the
    first byte is tested against 0x43 ('C'), so the accepted triples are
    ('C', 'W', marker), marker 'S', 'C' or 'Z'. *)
Lemma legacy_signature_as_coded
  (s : SWFStream) (a b c v l0 l1 l2 l3 : byte) (post : bytes) :
  unread (f s) = a :: b :: c :: v :: l0 :: l1 :: l2 :: l3 :: post ->
  ui8 v <= 6 ->
  if Byte.eqb a "C" && Byte.eqb b "W"
     && (Byte.eqb c "S" || Byte.eqb c "C" || Byte.eqb c "Z")
  then exists s',
      Header.init s
      = (s', Ok (mkHeader (ui8 v) (Byte.eqb c "C") (Byte.eqb c "Z")
                   (Stream.le [l0; l1; l2; l3]) None None None))
  else snd (Header.init s) = Err HeaderError.
Proof.
  intros U V.
  destruct (init_after_signature s a b c v _ U) as (s4 & U4 & ->).
  assert ((ui8 v >? 6) = false) as ->.
  { destruct (Z.gtb_spec (ui8 v) 6); [lia | reflexivity]. }
  destruct (readUI32_unread s4 _ _ _ _ _ U4) as (s8 & E8 & U8).
  bytes_tests.
  destruct (Byte.eqb a "C"), (Byte.eqb b "W"), (Byte.eqb c "S") eqn:ES,
    (Byte.eqb c "C") eqn:EC, (Byte.eqb c "Z") eqn:EZ;
    cbn [negb orb andb]; try reflexivity;
    exists s8; unfold bind_st at 1, ret at 1;
    rewrite (bind_st_ok _ _ _ _ _ E8); reflexivity.
Qed.

(** C1: the legacy table of the specification maps ('F', 'W', 'S') to an
    uncompressed header, and [SWFHeader.__init__] raises the
    invalid-signature exception on "FWS" with version 6; it accepts "CWS"
    with version 6, which the table does not contain. *)
Theorem legacy_signature_mismatch :
  lookup_signature (signature_mapping false) "F" "W" "S" = Some no_compression
  /\ snd (Header.init
            (mkStream (BytesIO_of ["F"; "W"; "S"; x06; x10; x00; x00; x00]%byte)))
     = Err HeaderError
  /\ lookup_signature (signature_mapping false) "C" "W" "S" = None
  /\ exists h,
      snd (Header.init
             (mkStream (BytesIO_of ["C"; "W"; "S"; x06; x10; x00; x00; x00]%byte)))
      = Ok h.
Proof.
  repeat split; try reflexivity. eexists. vm_compute. reflexivity.
Qed.

(** C8: for a header whose version is 6 or less, [SWFHeader.save] leaves the
    file exactly as it was and returns normally. *)
Theorem legacy_save_writes_nothing
  (self : SWFHeader) (stream : option SWFStream) (file : BytesIO) :
  _version self <= 6 ->
  Header.save self stream file = (file, Ok tt).
Proof.
  intros V. unfold Header.save.
  destruct (Z.gtb_spec (_version self) 6); [lia | reflexivity].
Qed.

Lemma legacy_save_writes_nothing_witness :
  _version (mkHeader 6 true false 16 None None None) <= 6
  /\ Header.save (mkHeader 6 true false 16 None None None) None
       (BytesIO_of ["x"%byte])
     = (BytesIO_of ["x"%byte], Ok tt).
Proof.
  split.
  - discriminate.
  - apply legacy_save_writes_nothing. discriminate.
Defined.

(** ** The compression flags *)

(** A header that [SWFHeader.__init__] returns took both flags from one
    byte, compared with 0x43 and with 0x5A. *)
Lemma init_flags (s s' : SWFStream) (h : SWFHeader) :
  Header.init s = (s', Ok h) ->
  exists x : Z, flags h = (x =? 0x43, x =? 0x5A).
Proof.
  unfold Header.init, bind_st, flags.
  destruct (Stream.readUI8 s) as [s1 [a|?]]; [|discriminate].
  destruct (Stream.readUI8 s1) as [s2 [b|?]]; [|discriminate].
  destruct (Stream.readUI8 s2) as [s3 [c|?]]; [|discriminate].
  destruct (Stream.readUI8 s3) as [s4 [v|?]]; [|discriminate].
  destruct (v >? 6);
    match goal with
    | |- context [if ?t then raise _ else _] => destruct t
    end; unfold raise, ret; try discriminate;
    destruct (Stream.readUI32 s4) as [s8 [n|?]]; try discriminate;
    intros E; inversion E; subst; cbn; eauto.
Qed.

(** C10: in a header returned by [SWFHeader.__init__] the two flags are
    never both set, so the kind (none, zlib, lzma) determines both flags and
    is determined by them; [compressed] holds exactly for the kinds zlib and
    lzma; and the three setters of the class leave both flags as parsed. *)
Theorem compression_flags_exclusive (s s' : SWFStream) (h : SWFHeader) :
  Header.init s = (s', Ok h) ->
  _compressed_zlib h && _compressed_lzma h = false
  /\ (kind_of h = zlib <-> Header.compressed_zlib h = true)
  /\ (kind_of h = lzma <-> Header.compressed_lzma h = true)
  /\ (kind_of h = no_compression <-> Header.compressed h = false)
  /\ (Header.compressed h = true <-> kind_of h = zlib \/ kind_of h = lzma)
  /\ (forall r, flags (Header.set_frame_size h r) = flags h)
  /\ (forall r, flags (Header.set_frame_rate h r) = flags h)
  /\ (forall n, flags (Header.set_frame_count h n) = flags h).
Proof.
  intros H. destruct (init_flags _ _ _ H) as (x & F).
  unfold flags in F. injection F as Fz Fl.
  unfold kind_of, Header.compressed, Header.compressed_zlib,
    Header.compressed_lzma, flags.
  rewrite Fz, Fl.
  destruct (Z.eqb_spec x 0x43), (Z.eqb_spec x 0x5A); try lia;
    cbn; intuition congruence.
Qed.

Lemma compression_flags_exclusive_witness :
  let s := mkStream (BytesIO_of ["Z"; "W"; "S"; x08; x10; x00; x00; x00]%byte) in
  Header.init s
  = (mkStream (mkBytesIO ["Z"; "W"; "S"; x08; x10; x00; x00; x00]%byte 8),
     Ok (mkHeader 8 false true 16 None None None))
  /\ false && true = false.
Proof.
  intros s.
  assert (E : Header.init s
              = (mkStream
                   (mkBytesIO ["Z"; "W"; "S"; x08; x10; x00; x00; x00]%byte 8),
                 Ok (mkHeader 8 false true 16 None None None)))
    by (vm_compute; reflexivity).
  split; [exact E | ].
  exact (proj1 (compression_flags_exclusive s _ _ E)).
Defined.

(** ** Little-endian fields and appending writes *)

Lemma le_cons (b : byte) (bs : bytes) :
  Stream.le (b :: bs) = ui8 b + 256 * Stream.le bs.
Proof. reflexivity. Qed.

Lemma byte_of_le (b : byte) (bs : bytes) : byte_of_Z (Stream.le (b :: bs)) = b.
Proof.
  rewrite byte_of_Z_mod, le_cons.
  replace (ui8 b + 256 * Stream.le bs) with (ui8 b + Stream.le bs * 256) by lia.
  rewrite Z.mod_add by lia.
  rewrite Z.mod_small by apply ui8_range. apply byte_of_ui8.
Qed.

Lemma shiftr_le (b : byte) (bs : bytes) :
  Z.shiftr (Stream.le (b :: bs)) 8 = Stream.le bs.
Proof.
  rewrite Z.shiftr_div_pow2, le_cons by lia. change (2 ^ 8) with 256.
  replace (ui8 b + 256 * Stream.le bs) with (ui8 b + Stream.le bs * 256) by lia.
  rewrite Z.div_add by lia.
  rewrite Z.div_small by apply ui8_range. lia.
Qed.

(** The four bytes [writeUI32] produces for a length that [readUI32] read. *)
Lemma ui32_bytes (l0 l1 l2 l3 : byte) :
  let v := Stream.le [l0; l1; l2; l3] in
  [byte_of_Z v; byte_of_Z (Z.shiftr v 8); byte_of_Z (Z.shiftr v 16);
   byte_of_Z (Z.shiftr v 24)] = [l0; l1; l2; l3].
Proof.
  intros v; subst v.
  change 16 with (8 + 8); change 24 with (8 + 8 + 8).
  rewrite <- !Z.shiftr_shiftr by lia.
  now rewrite !shiftr_le, !byte_of_le.
Qed.

Lemma write_at_end (io : BytesIO) (data : bytes) :
  at_end io ->
  write io data
  = mkBytesIO (getvalue io ++ data) (length (getvalue io ++ data)).
Proof.
  unfold at_end, write. intros ->.
  rewrite firstn_all, skipn_all2, app_nil_r, length_app, Nat.sub_diag by lia.
  reflexivity.
Qed.

Lemma at_end_write (io : BytesIO) (data : bytes) :
  at_end io -> at_end (write io data).
Proof.
  intros H. rewrite write_at_end by assumption. reflexivity.
Qed.

(** ** What [SWFHeader.save] writes back *)

(** For every modern header of the table, saving what was parsed appends six
    bytes: the marker, the version and the four length bytes.  The 'W' and
    'S' of the signature are not among them. *)
Lemma modern_save_as_coded
  (s : SWFStream) (a b c v l0 l1 l2 l3 : byte) (post : bytes)
  (k : compression) (file : BytesIO) :
  unread (f s) = a :: b :: c :: v :: l0 :: l1 :: l2 :: l3 :: post ->
  6 < ui8 v ->
  lookup_signature (signature_mapping true) a b c = Some k ->
  at_end file ->
  exists s' h file',
    Header.init s = (s', Ok h)
    /\ Header.save h (Some s') file = (file', Ok tt)
    /\ getvalue file' = getvalue file ++ [a; v; l0; l1; l2; l3].
Proof.
  intros U V K A.
  destruct (init_after_signature s a b c v _ U) as (s4 & U4 & ->).
  assert ((ui8 v >? 6) = true) as G by (apply Z.gtb_lt; lia).
  rewrite G.
  destruct (readUI32_unread s4 _ _ _ _ _ U4) as (s8 & E8 & U8).
  revert K. bytes_tests. cbn [signature_mapping lookup_signature].
  split_byte_tests; cbn [negb orb andb Byte.eqb]; intros K;
    try discriminate;
    unfold bind_st at 1, ret at 1; rewrite (bind_st_ok _ _ _ _ _ E8);
    unfold ret; do 3 eexists; (split; [reflexivity|]);
    unfold Header.save; cbn [_version _compressed_zlib _compressed_lzma
                               _file_length fst snd];
    rewrite G; unfold lift, attr, bind_st, Stream.writeUI8,
      Stream.writeUI32, modify;
    (split; [reflexivity|]);
    rewrite !write_at_end by (repeat apply at_end_write; exact A);
    cbn [getvalue]; rewrite <- !app_assoc; cbn [app];
    rewrite byte_of_ui8, ui32_bytes; reflexivity.
Qed.

(** C2: parsing the header "FWS", version 8, length 16 and saving it to an
    empty file writes six bytes, 'F', the version and the length; the
    eight bytes parsed are not reproduced, 'W' and 'S' are missing. *)
Theorem header_round_trip_drops_WS :
  let input := ["F"; "W"; "S"; x08; x10; x00; x00; x00]%byte in
  exists s' h file',
    Header.init (mkStream (BytesIO_of input)) = (s', Ok h)
    /\ Header.save h (Some s') BytesIO_new = (file', Ok tt)
    /\ getvalue file' = ["F"; x08; x10; x00; x00; x00]%byte
    /\ getvalue file' <> input.
Proof.
  intros input. do 3 eexists.
  split; [vm_compute; reflexivity|].
  split; [vm_compute; reflexivity|].
  split; [reflexivity | discriminate].
Qed.

(** ** The codec transforms *)

(** One pass of the loop, as the source writes it. *)
Lemma codec_loop_pass (chunk_size : Z) (method : pyobject)
  (input_buffer output_buffer : BytesIO) :
  codec_loop chunk_size method input_buffer output_buffer
  = match fst (read input_buffer chunk_size) with
    | [] => Ok (seek output_buffer 0)
    | b :: chunk =>
        match call method (b :: chunk) with
        | Ok data =>
            codec_loop chunk_size method (snd (read input_buffer chunk_size))
              (write output_buffer data)
        | Err e => Err e
        end
    end.
Proof.
  rewrite codec_loop_equation_1.
  unfold codec_loop_unfold_clause_1, inspect.
  destruct (fst (read input_buffer chunk_size)); reflexivity.
Qed.

(** With nothing left to read the loop returns the rewound output as it
    is: no codec call is made, and nothing is appended after the last
    chunk. *)
Lemma codec_loop_exhausted (chunk_size : Z) (method : pyobject)
  (input_buffer output_buffer : BytesIO) :
  fst (read input_buffer chunk_size) = [] ->
  codec_loop chunk_size method input_buffer output_buffer
  = Ok (seek output_buffer 0).
Proof.
  intros E. now rewrite codec_loop_pass, E.
Qed.

(** The zlib codec objects are not callable: given such an object the loop
    raises on its first chunk. *)
Lemma codec_loop_zlib_object (chunk_size : Z) (method : pyobject)
  (input_buffer output_buffer : BytesIO) :
  method = ZlibCompress \/ method = ZlibDecompress ->
  fst (read input_buffer chunk_size) <> [] ->
  codec_loop chunk_size method input_buffer output_buffer = Err TypeError.
Proof.
  intros M E. rewrite codec_loop_pass.
  destruct (fst (read input_buffer chunk_size)); [contradiction|].
  destruct M; subst; reflexivity.
Qed.

(** C4: [compress_zlib] and [compress_lzma] raise TypeError on every
    payload: the call through the instance passes three arguments, [self]
    first, to a function of two parameters, and the same holds for
    [decompress].  No compressed form of a payload is produced, and none is
    decoded. *)
Theorem codec_transforms_raise
  (pylzma_compress : bytes -> result bytes) (self : SWF) (payload : bytes) :
  compress_zlib self (BytesIO_of payload) = Err TypeError
  /\ compress_lzma pylzma_compress self (BytesIO_of payload) = Err TypeError
  /\ forall method input_buffer,
      compress [ObjSWF self; method; ObjFile input_buffer] = Err TypeError
      /\ decompress [ObjSWF self; method; ObjFile input_buffer]
         = Err TypeError.
Proof.
  repeat split.
Qed.

(** ** [SWF.save] *)

(** With a stream at hand [SWFHeader.save] returns normally. *)
Lemma header_save_returns (h : SWFHeader) (d : SWFStream) (file : BytesIO) :
  snd (Header.save h (Some d) file) = Ok tt.
Proof.
  unfold Header.save.
  destruct (_version h >? 6), (_compressed_zlib h), (_compressed_lzma h);
    reflexivity.
Qed.

Section SaveFacts.

Variable writeRECT : SWFStream -> SWFRectangle -> st BytesIO unit.
Variable save_tags : SWF -> SWFStream -> st BytesIO unit.
Variable pylzma_compress : bytes -> result bytes.

Local Abbreviation save_ := (save writeRECT save_tags pylzma_compress).

(** [save] gets as far as the header: the next statement calls the value of
    the property [compressed]. *)
Lemma save_stops_after_header (self : SWF) (h : SWFHeader) (sink : BytesIO) :
  _header self = Some h ->
  save_ self sink
  = (fst (Header.save h (_data self) sink),
     match snd (Header.save h (_data self) sink) with
     | Ok _ => Err TypeError
     | Err e => Err e
     end).
Proof.
  intros H. unfold save, bind_st, lift, to_file.
  rewrite H. cbn [attr file output_buffer].
  destruct (Header.save h (_data self) sink) as [file' [[]|e]]; reflexivity.
Qed.

(** [save] never returns normally. *)
Lemma save_always_raises (self : SWF) (sink : BytesIO) :
  exists e, snd (save_ self sink) = Err e.
Proof.
  destruct (_header self) as [h|] eqn:H.
  - rewrite (save_stops_after_header self h sink H). cbn [snd].
    destruct (snd (Header.save h (_data self) sink)); eauto.
  - unfold save, bind_st, lift. rewrite H. cbn. eauto.
Qed.

(** C3: on every document that has its data and a header declaring a
    compression kind, [save] writes what [SWFHeader.save] writes and then
    raises TypeError; neither the frame fields nor the tags nor any
    compressed byte reach the file. *)
Theorem save_compressed_raises
  (self : SWF) (h : SWFHeader) (d : SWFStream) (sink : BytesIO) :
  _header self = Some h ->
  _data self = Some d ->
  Header.compressed h = true ->
  save_ self sink = (fst (Header.save h (Some d) sink), Err TypeError).
Proof.
  intros H D _. rewrite (save_stops_after_header self h sink H), D.
  now rewrite header_save_returns.
Qed.

End SaveFacts.

Lemma cws_document_state :
  cws_document
  = (mkSWF [] 4096 (Some (mkStream (mkBytesIO cws_input 8)))
       (Some (mkHeader 8 true false 16 None None None)),
     Err TypeError).
Proof. vm_compute. reflexivity. Qed.

Lemma save_compressed_raises_witness :
  let self := fst cws_document in
  let h := mkHeader 8 true false 16 None None None in
  let d := mkStream (mkBytesIO cws_input 8) in
  _header self = Some h
  /\ _data self = Some d
  /\ Header.compressed h = true
  /\ save (fun _ _ => ret tt) (fun _ _ => ret tt) (fun chunk => Ok chunk)
       self BytesIO_new
     = (mkBytesIO ["C"; x08; x10; x00; x00; x00]%byte 6, Err TypeError).
Proof.
  intros self h d.
  split; [reflexivity | split; [reflexivity | split; [reflexivity | ]]].
  exact (save_compressed_raises (fun _ _ => ret tt) (fun _ _ => ret tt)
           (fun chunk => Ok chunk) self h d BytesIO_new
           eq_refl eq_refl eq_refl).
Defined.

(** ** [SWF.export] *)

Section ExportFacts.

Variable Rendered : Type.
Variable SVGExporter : SWF -> bool -> result Rendered.

Local Abbreviation export_ := (export Rendered SVGExporter).

(** C5: [export] raises the not-loaded exception on a document without
    data, the no-tags exception on a document with data and an empty tag
    list, and otherwise returns whatever the exporter (the one supplied,
    the SVG exporter when none is) returns for this document and this
    [force_stroke]. *)
Theorem export_gating
  (self : SWF) (exporter : option (SWF -> bool -> result Rendered))
  (force_stroke : bool) :
  (_data self = None -> export_ self exporter force_stroke = Err NotLoadedError)
  /\ (_data self <> None -> tags self = [] ->
      export_ self exporter force_stroke = Err EmptyDocumentError)
  /\ (_data self <> None -> tags self <> [] ->
      export_ self exporter force_stroke
      = chosen SVGExporter exporter self force_stroke).
Proof.
  unfold export, chosen.
  destruct (_data self) as [d|], (tags self) as [|t ts];
    repeat split; intros; try congruence; reflexivity.
Qed.

End ExportFacts.

Lemma export_gating_witness :
  let svg : SWF -> bool -> result bytes := fun _ _ => Ok [] in
  let custom : SWF -> bool -> result bytes :=
    fun self stroke => Ok (if stroke then map (fun _ => x01) (tags self) else []) in
  let d := mkStream (BytesIO_of []) in
  let fresh := mkSWF [] 4096 None None in
  let tagless := mkSWF [] 4096 (Some d) None in
  let tagged := mkSWF [mkTag 9 []; mkTag 0 []] 4096 (Some d) None in
  export bytes svg fresh None false = Err NotLoadedError
  /\ export bytes svg tagless None false = Err EmptyDocumentError
  /\ export bytes svg tagged (Some custom) true = Ok [x01; x01]
  /\ export bytes svg tagged None true = Ok [].
Proof.
  intros svg custom d fresh tagless tagged.
  split; [| split; [| split]].
  - exact (proj1 (export_gating bytes svg fresh None false) eq_refl).
  - apply (proj1 (proj2 (export_gating bytes svg tagless None false)));
      [discriminate | reflexivity].
  - apply (proj2 (proj2 (export_gating bytes svg tagged (Some custom) true)));
      discriminate.
  - apply (proj2 (proj2 (export_gating bytes svg tagged None true)));
      discriminate.
Defined.

(** ** What [parse] leaves alone *)

Lemma keeps_bind {A B} (m : st SWF A) (k : A -> st SWF B) :
  keeps_configuration m -> (forall a, keeps_configuration (k a)) ->
  keeps_configuration (bind_st m k).
Proof.
  intros Hm Hk self. unfold bind_st. specialize (Hm self).
  destruct (m self) as [self' [a|e]]; cbn [fst] in *.
  - now rewrite Hk.
  - exact Hm.
Qed.

Lemma keeps_pure {A} (r : SWF -> result A) :
  keeps_configuration (fun self => (self, r self)).
Proof. intros self. reflexivity. Qed.

Lemma keeps_set_data d : keeps_configuration (set_data d).
Proof. intros self. reflexivity. Qed.

Lemma keeps_set_header h : keeps_configuration (set_header h).
Proof. intros self. reflexivity. Qed.

Lemma keeps_on_data {A} (m : st SWFStream A) : keeps_configuration (on_data m).
Proof.
  intros self. unfold on_data.
  destruct (_data self) as [d|]; [destruct (m d)|]; reflexivity.
Qed.

Lemma keeps_on_header g : keeps_configuration (on_header g).
Proof.
  intros self. unfold on_header. destruct (_header self); reflexivity.
Qed.

Create HintDb keeps.

#[local] Hint Resolve keeps_pure keeps_set_data keeps_set_header
  keeps_on_data keeps_on_header : keeps.

Ltac keeps_steps :=
  repeat (apply keeps_bind; [|intros ?]); auto with keeps.

(** [parse] assigns neither the tags nor the chunk size: tags are not
    loaded by it. *)
Lemma parse_keeps_configuration pylzma_decompress data :
  keeps_configuration (parse pylzma_decompress data).
Proof.
  unfold parse, the_header, ret. keeps_steps.
  destruct (Header.compressed _); [destruct (Header.compressed_zlib _)|];
    keeps_steps.
Qed.

Lemma loaded_bind {A B} (m : st SWF A) (k : A -> st SWF B) :
  keeps_loaded m -> (forall a, keeps_loaded (k a)) ->
  keeps_loaded (bind_st m k).
Proof.
  intros Hm Hk self D. unfold bind_st. specialize (Hm self D).
  destruct (m self) as [self' [a|e]]; cbn [fst] in *.
  - now apply Hk.
  - exact Hm.
Qed.

Lemma loaded_pure {A} (r : SWF -> result A) :
  keeps_loaded (fun self => (self, r self)).
Proof. intros self D. exact D. Qed.

Lemma loaded_set_data d : keeps_loaded (set_data (Some d)).
Proof. intros self _. discriminate. Qed.

Lemma loaded_set_header h : keeps_loaded (set_header h).
Proof. intros self D. exact D. Qed.

Lemma loaded_on_data {A} (m : st SWFStream A) : keeps_loaded (on_data m).
Proof.
  intros self D. unfold on_data.
  destruct (_data self) as [d|]; [destruct (m d); discriminate | contradiction].
Qed.

Lemma loaded_on_header g : keeps_loaded (on_header g).
Proof.
  intros self D. unfold on_header.
  destruct (_header self); [exact D | exact D].
Qed.

Create HintDb loaded.

#[local] Hint Resolve loaded_pure loaded_set_data loaded_set_header
  loaded_on_data loaded_on_header : loaded.

Ltac loaded_steps :=
  repeat (apply loaded_bind; [|intros ?]); auto with loaded.

(** Once [parse] has been called the document has data, whether [parse]
    returned or raised. *)
Lemma parse_loads pylzma_decompress data self :
  _data (fst (parse pylzma_decompress data self)) <> None.
Proof.
  unfold parse at 1. unfold bind_st at 1.
  cbn [set_data modify].
  match goal with
  | |- _data (fst (?m ?s)) <> None =>
      assert (K : keeps_loaded m); [| apply K; discriminate]
  end.
  unfold the_header, ret. loaded_steps.
  destruct (Header.compressed _); [destruct (Header.compressed_zlib _)|];
    loaded_steps.
Qed.

(** The constructor returns a document without tags and with chunk size
    4096; it has data exactly when a file was given. *)
Lemma constructed_document
  (pylzma_decompress : bytes -> result bytes)
  (file : option BytesIO) (chunk_size : option Z) (self : SWF) :
  SWF_init pylzma_decompress file chunk_size = Ok self ->
  configuration self = ([], 4096) /\ (_data self = None <-> file = None).
Proof.
  unfold SWF_init. cbn [set_data modify fst _data].
  destruct file as [io|]; cbn [option_map].
  - pose proof (parse_keeps_configuration pylzma_decompress
                  (inl (mkStream io))
                  (mkSWF [] 4096 (Some (mkStream io)) None)) as K.
    pose proof (parse_loads pylzma_decompress (inl (mkStream io))
                  (mkSWF [] 4096 (Some (mkStream io)) None)) as D.
    destruct (parse pylzma_decompress (inl (mkStream io)) _)
      as [self' [[]|e]]; [|discriminate].
    intros [= <-]. cbn [fst] in *. split; [exact K|].
    split; [contradiction | discriminate].
  - intros [= <-]. split; [reflexivity | split; reflexivity].
Qed.

(** A document the constructor built from a file has data and no tags:
    [export] on it raises the no-tags exception, whatever the file held. *)
Lemma export_after_constructor
  (pylzma_decompress : bytes -> result bytes)
  (Rendered : Type) (SVGExporter : SWF -> bool -> result Rendered)
  (io : BytesIO) (chunk_size : option Z) (self : SWF)
  (exporter : option (SWF -> bool -> result Rendered)) (force_stroke : bool) :
  SWF_init pylzma_decompress (Some io) chunk_size = Ok self ->
  export Rendered SVGExporter self exporter force_stroke
  = Err EmptyDocumentError.
Proof.
  intros H. destruct (constructed_document _ _ _ _ H) as [K [D _]].
  injection K as T _. unfold export. rewrite T.
  destruct (_data self); [reflexivity|].
  now specialize (D eq_refl).
Qed.

(** C7: whatever [chunk_size] the constructor is given, the document it
    returns has chunk size 4096. *)
Theorem chunk_size_argument_ignored
  (pylzma_decompress : bytes -> result bytes)
  (file : option BytesIO) (chunk_size : option Z) (self : SWF) :
  SWF_init pylzma_decompress file chunk_size = Ok self ->
  _chunk_size self = 4096.
Proof.
  intros H.
  destruct (constructed_document _ _ _ _ H) as [K _].
  now injection K.
Qed.

Lemma chunk_size_argument_ignored_witness :
  SWF_init (fun chunk => Ok chunk) None (Some 1) = Ok (mkSWF [] 4096 None None)
  /\ _chunk_size (mkSWF [] 4096 None None) = 4096.
Proof.
  split; [reflexivity|].
  exact (chunk_size_argument_ignored (fun chunk => Ok chunk) None (Some 1)
           (mkSWF [] 4096 None None) eq_refl).
Defined.

(** ** Parsing an uncompressed document *)

Lemma readRECT_unread (s : SWFStream) (r0 : byte) (rect post : bytes) :
  unread (f s) = (r0 :: rect) ++ post ->
  length (r0 :: rect) = Stream.rect_size r0 ->
  exists s', Stream.readRECT s = (s', Ok (Stream.decodeRECT (r0 :: rect)))
             /\ unread (f s') = post.
Proof.
  intros U L.
  destruct (readBytes_unread s (r0 :: rect) post U) as (s' & E & U').
  exists s'. split; [|exact U'].
  unfold Stream.readRECT. rewrite U. cbn [app].
  rewrite <- L. now rewrite (bind_st_ok _ _ _ _ _ E).
Qed.

Lemma on_data_ok {A} (m : st SWFStream A) t c h (d d' : SWFStream) (a : A) :
  m d = (d', Ok a) ->
  on_data m (mkSWF t c (Some d) h) = (mkSWF t c (Some d') h, Ok a).
Proof.
  intros E. unfold on_data. cbn [_data]. now rewrite E.
Qed.

(** [parse] on a stream that holds a modern uncompressed header, a
    rectangle, a rate and a frame count: the document keeps its tags and
    chunk size, its data is the stream behind the frame count, and its
    header carries what was read. *)
Lemma parse_uncompressed
  (pylzma_decompress : bytes -> result bytes) (self : SWF) (s : SWFStream)
  (v l0 l1 l2 l3 r0 q0 q1 n0 n1 : byte) (rect post : bytes) :
  unread (f s)
  = ["F"; "W"; "S"; v; l0; l1; l2; l3]%byte
      ++ (r0 :: rect) ++ [q0; q1; n0; n1] ++ post ->
  6 < ui8 v ->
  length (r0 :: rect) = Stream.rect_size r0 ->
  exists s',
    unread (f s') = post
    /\ parse pylzma_decompress (inl s) self
       = (mkSWF (tags self) (_chunk_size self) (Some s')
            (Some (mkHeader (ui8 v) false false (Stream.le [l0; l1; l2; l3])
                     (Some (Stream.decodeRECT (r0 :: rect)))
                     (Some (Stream.le [q0; q1]))
                     (Some (Stream.le [n0; n1])))),
          Ok tt).
Proof.
  intros U V L. cbn [app] in U.
  destruct (init_after_signature s _ _ _ _ _ U) as (s4 & U4 & I).
  assert ((ui8 v >? 6) = true) as G by (apply Z.gtb_lt; lia).
  rewrite G in I. cbn in I.
  destruct (readUI32_unread s4 _ _ _ _ _ U4) as (s8 & E8 & U8).
  rewrite (bind_st_ok _ _ _ _ _ E8) in I. unfold ret in I.
  destruct (readRECT_unread s8 r0 rect _ U8 L) as (sr & Er & Ur).
  destruct (readUI16_unread sr q0 q1 _ Ur) as (sq & Eq & Uq).
  destruct (readUI16_unread sq n0 n1 _ Uq) as (sn & En & Un).
  exists sn. split; [exact Un|].
  unfold parse.
  unfold bind_st at 1. cbn [set_data modify _data tags _chunk_size _header].
  rewrite (bind_st_ok _ _ _ _ _ (on_data_ok _ _ _ _ _ _ _ I)).
  cbn [_data tags _chunk_size _header].
  unfold bind_st at 1. cbn [set_header modify _data tags _chunk_size _header].
  unfold bind_st at 1. cbn [the_header attr _header].
  unfold Header.compressed at 1. cbn [_compressed_zlib _compressed_lzma orb].
  unfold bind_st at 1, ret at 1.
  rewrite (bind_st_ok _ _ _ _ _ (on_data_ok _ _ _ _ _ _ _ Er)).
  cbn [_data tags _chunk_size _header].
  unfold bind_st at 1.
  cbn [on_header set_header modify _data tags _chunk_size _header].
  rewrite (bind_st_ok _ _ _ _ _ (on_data_ok _ _ _ _ _ _ _ Eq)).
  cbn [_data tags _chunk_size _header].
  unfold bind_st at 1.
  cbn [on_header set_header modify _data tags _chunk_size _header].
  rewrite (bind_st_ok _ _ _ _ _ (on_data_ok _ _ _ _ _ _ _ En)).
  cbn [_data tags _chunk_size _header].
  reflexivity.
Qed.

(** C9: a file that begins 0x46 0x57 0x53 0x08, goes on with four length
    bytes, a well-formed rectangle, two rate bytes and a zero frame count
    (whatever follows) is parsed by the constructor without an exception;
    the header of the document is uncompressed, of version 8, with frame
    count 0; the document has no tags, and [export] on it raises the
    no-tags exception. *)
Theorem uncompressed_v8_scenario
  (pylzma_decompress : bytes -> result bytes)
  (Rendered : Type) (SVGExporter : SWF -> bool -> result Rendered)
  (l0 l1 l2 l3 r0 q0 q1 : byte) (rect post : bytes)
  (exporter : option (SWF -> bool -> result Rendered)) (force_stroke : bool) :
  length (r0 :: rect) = Stream.rect_size r0 ->
  let input :=
    [x46; x57; x53; x08; l0; l1; l2; l3]
      ++ (r0 :: rect) ++ [q0; q1; x00; x00] ++ post in
  exists self h,
    SWF_init pylzma_decompress (Some (BytesIO_of input)) None = Ok self
    /\ _header self = Some h
    /\ kind_of h = no_compression
    /\ Header.compressed h = false
    /\ Header.version h = 8
    /\ Header.file_length h = Stream.le [l0; l1; l2; l3]
    /\ Header.frame_size h = Ok (Stream.decodeRECT (r0 :: rect))
    /\ Header.frame_rate h = Ok (Stream.le [q0; q1])
    /\ Header.frame_count h = Ok 0
    /\ tags self = []
    /\ export Rendered SVGExporter self exporter force_stroke
       = Err EmptyDocumentError.
Proof.
  intros L input.
  destruct (parse_uncompressed pylzma_decompress
              (mkSWF [] 4096 (Some (mkStream (BytesIO_of input))) None)
              (mkStream (BytesIO_of input))
              x08 l0 l1 l2 l3 r0 q0 q1 x00 x00 rect post
              eq_refl eq_refl L) as (s' & _ & P).
  cbn [tags _chunk_size] in P.
  do 2 eexists. split.
  - unfold SWF_init.
    cbn [set_data modify fst option_map _data tags _chunk_size _header].
    rewrite P. reflexivity.
  - cbn [_header tags _chunk_size _data]. repeat split.
Qed.

Lemma uncompressed_v8_scenario_witness :
  (* a rectangle of width 0: one byte *)
  length [x00] = Stream.rect_size x00
  /\ exists self,
      SWF_init (fun chunk => Ok chunk)
        (Some (BytesIO_of
                 [x46; x57; x53; x08; x0d; x00; x00; x00; x00; x00; x0c;
                  x00; x00]))
        None = Ok self
      /\ export bytes (fun _ _ => Ok []) self None false
         = Err EmptyDocumentError.
Proof.
  split; [reflexivity|].
  destruct (uncompressed_v8_scenario (fun chunk => Ok chunk) bytes
              (fun _ _ => Ok []) x0d x00 x00 x00 x00 x00 x0c [] [] None false
              eq_refl) as (self & h & I & _ & _ & _ & _ & _ & _ & _ & _ & _ & X).
  exists self. split; [exact I | exact X].
Defined.

(** ** The codec loop, piece by piece *)

Lemma chunks_upto_enough (n : nat) (fuel fuel' : nat) (l : bytes) :
  (0 < n)%nat -> (length l <= fuel)%nat -> (length l <= fuel')%nat ->
  chunks_upto fuel n l = chunks_upto fuel' n l.
Proof.
  intros N. revert fuel' l.
  induction fuel as [|fuel IH]; intros fuel' l L L'.
  - destruct l; [now destruct fuel' | cbn in L; lia].
  - destruct l as [|b t]; [now destruct fuel'|].
    destruct fuel' as [|fuel']; [cbn in L'; lia|].
    cbn [chunks_upto]. f_equal.
    assert (S : (length (skipn n (b :: t)) <= length t)%nat).
    { rewrite length_skipn. cbn [length]. lia. }
    cbn [length] in L, L'. apply IH; lia.
Qed.

Lemma chunks_upto_fuel (n : nat) (l : bytes) (fuel : nat) :
  (0 < n)%nat -> (length l <= fuel)%nat ->
  chunks_upto fuel n l = chunks n l.
Proof.
  intros N L. unfold chunks. now apply chunks_upto_enough.
Qed.

Lemma chunks_cons (n : nat) (b : byte) (t : bytes) :
  (0 < n)%nat ->
  chunks n (b :: t) = firstn n (b :: t) :: chunks n (skipn n (b :: t)).
Proof.
  intros N. unfold chunks at 1. cbn [length chunks_upto].
  rewrite chunks_upto_fuel; [reflexivity | exact N |].
  rewrite length_skipn. cbn [length]. lia.
Qed.

(** The pieces are the buffer, in order, with nothing lost. *)
Lemma concat_chunks (n : nat) (l : bytes) :
  (0 < n)%nat -> concat (chunks n l) = l.
Proof.
  intros N. remember (length l) as k eqn:K. revert l K.
  induction k as [k IH] using lt_wf_ind. intros l K.
  destruct l as [|b t]; [reflexivity|].
  rewrite chunks_cons by exact N. cbn [concat].
  rewrite (IH (length (skipn n (b :: t)))); [apply firstn_skipn| |reflexivity].
  subst k. rewrite length_skipn. cbn [length]. lia.
Qed.

Lemma unread_after_read (io : BytesIO) (n : Z) :
  unread (snd (read io n)) = skipn (length (fst (read io n))) (unread io).
Proof.
  unfold read, unread. cbn [fst snd getvalue tell].
  now rewrite Nat.add_comm, skipn_skipn.
Qed.

Lemma skipn_length_firstn (n : nat) (l : bytes) :
  skipn (length (firstn n l)) l = skipn n l.
Proof.
  rewrite length_firstn.
  destruct (Nat.min_spec n (length l)) as [[_ ->] | [L ->]]; [reflexivity|].
  now rewrite skipn_all, skipn_all2 by lia.
Qed.

(** X1: the loop of [compress] and [decompress], run with a chunk size and
    a codec object on an input buffer and an output positioned at its end,
    calls the codec once on each piece of the unread input, in order,
    appends each result to the output, and returns the output rewound to
    position 0; the first exception of the codec ends the loop and is the
    outcome.  No call follows the last piece. *)
Theorem codec_loop_feeds (chunk_size : Z) (method : pyobject)
  (input_buffer output_buffer : BytesIO) :
  at_end output_buffer ->
  codec_loop chunk_size method input_buffer output_buffer
  = rewound (feed (call method) (pieces chunk_size (unread input_buffer))
               (getvalue output_buffer)).
Proof.
  remember (length (unread input_buffer)) as k eqn:K.
  revert input_buffer output_buffer K.
  induction k as [k IH] using lt_wf_ind. intros inp out K A.
  rewrite codec_loop_pass.
  pose proof (unread_after_read inp chunk_size) as U.
  unfold pieces.
  destruct (chunk_size <? 0) eqn:Neg.
  - (* read(-1): everything that is left *)
    assert (R : fst (read inp chunk_size) = unread inp)
      by (unfold read; now rewrite Neg).
    rewrite R in *. destruct (unread inp) as [|b t] eqn:L; [reflexivity|].
    cbn [feed]. destruct (call method (b :: t)) as [data|e]; [|reflexivity].
    rewrite skipn_all in U.
    rewrite (IH 0%nat); [ | subst k; cbn; lia | now rewrite U
                        | now apply at_end_write ].
    unfold pieces. rewrite Neg, U. cbn [feed rewound].
    now rewrite write_at_end by exact A.
  - assert (R : fst (read inp chunk_size)
                = firstn (Z.to_nat chunk_size) (unread inp))
      by (unfold read; now rewrite Neg).
    rewrite R in *. apply Z.ltb_ge in Neg.
    destruct (Z.eqb_spec chunk_size 0) as [-> | NZ]; [reflexivity|].
    assert (N : (0 < Z.to_nat chunk_size)%nat) by lia.
    destruct (unread inp) as [|b t] eqn:L.
    + rewrite firstn_nil. reflexivity.
    + rewrite chunks_cons by exact N.
      destruct (firstn (Z.to_nat chunk_size) (b :: t)) as [|c cs] eqn:F.
      { destruct (Z.to_nat chunk_size); [lia | discriminate]. }
      cbn [feed]. destruct (call method (c :: cs)) as [data|e]; [|reflexivity].
      rewrite <- F, skipn_length_firstn in U.
      rewrite (IH (length (skipn (Z.to_nat chunk_size) (b :: t))));
        [ | subst k; rewrite length_skipn; cbn [length]; lia
          | now rewrite U | now apply at_end_write ].
      unfold pieces.
      assert ((chunk_size <? 0) = false) as -> by (apply Z.ltb_ge; lia).
      destruct (Z.eqb_spec chunk_size 0); [contradiction|].
      now rewrite U, write_at_end by exact A.
Qed.

Lemma codec_loop_feeds_witness :
  let double : pyobject := Function (fun chunk => Ok (chunk ++ chunk)) in
  at_end BytesIO_new
  /\ codec_loop 2 double (BytesIO_of ["a"; "b"; "c"]%byte) BytesIO_new
     = Ok (BytesIO_of ["a"; "b"; "a"; "b"; "c"; "c"]%byte).
Proof.
  intros double. split; [reflexivity|].
  exact (codec_loop_feeds 2 double (BytesIO_of ["a"; "b"; "c"]%byte)
           BytesIO_new eq_refl).
Defined.

Lemma morphism_nil (g : bytes -> bytes) :
  (forall a b, g (a ++ b) = g a ++ g b) -> g [] = [].
Proof.
  intros M. specialize (M [] []). cbn [app] in M.
  apply (f_equal (@length byte)) in M. rewrite length_app in M.
  destruct (g []); [reflexivity | cbn in M; lia].
Qed.

Lemma feed_morphism (g : bytes -> bytes) (cs : list bytes) (acc : bytes) :
  (forall a b, g (a ++ b) = g a ++ g b) ->
  feed (fun chunk => Ok (g chunk)) cs acc = Ok (acc ++ g (concat cs)).
Proof.
  intros M. revert acc. induction cs as [|c cs IH]; intros acc; cbn [feed concat].
  - now rewrite (morphism_nil g M), app_nil_r.
  - now rewrite IH, M, app_assoc.
Qed.

Lemma concat_pieces (chunk_size : Z) (l : bytes) :
  chunk_size <> 0 -> concat (pieces chunk_size l) = l.
Proof.
  intros NZ. unfold pieces. destruct (chunk_size <? 0) eqn:Neg.
  - destruct l; [reflexivity | cbn; now rewrite app_nil_r].
  - destruct (Z.eqb_spec chunk_size 0); [contradiction|].
    apply Z.ltb_ge in Neg. apply concat_chunks. lia.
Qed.

(** X2: when the codec is a function that maps a concatenation to the
    concatenation of the images (a stateless byte-wise transform, the
    identity among them), the loop appends the image of the whole unread
    input to the output, for every chunk size other than 0: no byte is
    dropped, repeated or reordered, and the chunk size does not show in the
    result. *)
Theorem codec_loop_chunk_size_invariant (g : bytes -> bytes) (chunk_size : Z)
  (input_buffer output_buffer : BytesIO) :
  (forall a b, g (a ++ b) = g a ++ g b) ->
  chunk_size <> 0 ->
  at_end output_buffer ->
  codec_loop chunk_size (Function (fun chunk => Ok (g chunk)))
    input_buffer output_buffer
  = Ok (mkBytesIO (getvalue output_buffer ++ g (unread input_buffer)) 0).
Proof.
  intros M NZ A. rewrite codec_loop_feeds by exact A.
  change (call (Function (fun chunk : bytes => Ok (g chunk))))
    with (fun chunk : bytes => Ok (g chunk)).
  now rewrite feed_morphism, concat_pieces by assumption.
Qed.

Lemma codec_loop_chunk_size_invariant_witness :
  (forall a b : bytes, a ++ b = a ++ b)
  /\ 1 <> 0
  /\ at_end BytesIO_new
  /\ codec_loop 1 (Function (fun chunk => Ok chunk))
       (BytesIO_of ["a"; "b"; "c"]%byte) BytesIO_new
     = Ok (BytesIO_of ["a"; "b"; "c"]%byte).
Proof.
  split; [reflexivity | split; [discriminate | split; [reflexivity|]]].
  apply (codec_loop_chunk_size_invariant (fun chunk => chunk) 1
           (BytesIO_of ["a"; "b"; "c"]%byte) BytesIO_new);
    [reflexivity | discriminate | reflexivity].
Defined.

(** ** What a call to [parse] that returns has done *)

Lemma bind_st_returns {S A B} (m : st S A) (k : A -> st S B) s s' b :
  bind_st m k s = (s', Ok b) ->
  exists s1 a, m s = (s1, Ok a) /\ k a s1 = (s', Ok b).
Proof.
  unfold bind_st. destruct (m s) as [s1 [a|e]]; [eauto | discriminate].
Qed.

Lemma on_data_returns {A} (m : st SWFStream A) self self' (a : A) :
  on_data m self = (self', Ok a) ->
  exists d d',
    _data self = Some d /\ m d = (d', Ok a)
    /\ self' = mkSWF (tags self) (_chunk_size self) (Some d') (_header self).
Proof.
  unfold on_data. destruct (_data self) as [d|]; [|discriminate].
  destruct (m d) as [d' r] eqn:M. intros E. injection E as E1 E2. subst.
  exists d, d'. repeat split. exact M.
Qed.

Lemma on_header_returns g self self' u :
  on_header g self = (self', Ok u) ->
  exists h,
    _header self = Some h
    /\ self' = mkSWF (tags self) (_chunk_size self) (_data self) (Some (g h)).
Proof.
  unfold on_header. destruct (_header self) as [h|]; [|discriminate].
  intros [= <-]. eauto.
Qed.

(** A header as [SWFHeader.__init__] returns it has no frame fields yet. *)
Lemma init_frame_fields (s s' : SWFStream) (h : SWFHeader) :
  Header.init s = (s', Ok h) ->
  _frame_size h = None /\ _frame_rate h = None /\ _frame_count h = None.
Proof.
  unfold Header.init, bind_st.
  destruct (Stream.readUI8 s) as [s1 [a|?]]; [|discriminate].
  destruct (Stream.readUI8 s1) as [s2 [b|?]]; [|discriminate].
  destruct (Stream.readUI8 s2) as [s3 [c|?]]; [|discriminate].
  destruct (Stream.readUI8 s3) as [s4 [v|?]]; [|discriminate].
  destruct (v >? 6);
    match goal with
    | |- context [if ?t then raise _ else _] => destruct t
    end; unfold raise, ret; try discriminate;
    destruct (Stream.readUI32 s4) as [s8 [n|?]]; try discriminate;
    intros E; inversion E; subst; cbn; auto.
Qed.

(** X3: when [parse] returns normally the header it stored is
    uncompressed (a compressed one makes [parse] raise), carries a frame
    size, a frame rate and a frame count, the document has data, and its
    tags and chunk size are those it had before. *)
Theorem parse_returns_uncompressed
  (pylzma_decompress : bytes -> result bytes)
  (data : SWFStream + BytesIO) (self self' : SWF) :
  parse pylzma_decompress data self = (self', Ok tt) ->
  exists h d r q n,
    _header self' = Some h
    /\ _data self' = Some d
    /\ Header.compressed h = false
    /\ Header.frame_size h = Ok r
    /\ Header.frame_rate h = Ok q
    /\ Header.frame_count h = Ok n
    /\ configuration self' = configuration self.
Proof.
  intros P.
  pose proof (parse_keeps_configuration pylzma_decompress data self) as K.
  rewrite P in K. cbn [fst] in K.
  unfold parse in P.
  apply bind_st_returns in P as (s1 & [] & P1 & P).
  apply bind_st_returns in P as (s2 & header & P2 & P).
  apply bind_st_returns in P as (s3 & [] & P3 & P).
  apply bind_st_returns in P as (s4 & header' & P4 & P).
  apply bind_st_returns in P as (s5 & [] & P5 & P).
  apply bind_st_returns in P as (s6 & r & P6 & P).
  apply bind_st_returns in P as (s7 & [] & P7 & P).
  apply bind_st_returns in P as (s8 & q & P8 & P).
  apply bind_st_returns in P as (s9 & [] & P9 & P).
  apply bind_st_returns in P as (s10 & n & P10 & P).
  apply on_data_returns in P2 as (d2 & d2' & _ & _ & ->).
  unfold set_header, modify in P3. injection P3 as <-.
  unfold the_header in P4. cbn [_header attr] in P4. injection P4 as <- <-.
  match type of P5 with
  | _ ?st = _ => set (s3 := st) in P5
  end.
  assert (C : Header.compressed header = false /\ s5 = s3).
  { destruct (Header.compressed header).
    - destruct (Header.compressed_zlib header);
        apply bind_st_returns in P5 as (? & ? & P5 & _);
        cbn in P5; discriminate.
    - unfold ret in P5. injection P5 as <-. auto. }
  destruct C as [C ->]. subst s3.
  apply on_data_returns in P6 as (d6 & d6' & _ & _ & ->).
  apply on_header_returns in P7 as (h7 & H7 & ->).
  apply on_data_returns in P8 as (d8 & d8' & _ & _ & ->).
  apply on_header_returns in P9 as (h9 & H9 & ->).
  apply on_data_returns in P10 as (d10 & d10' & _ & _ & ->).
  apply on_header_returns in P as (h11 & H11 & ->).
  cbn [_header _data tags _chunk_size] in *.
  injection H7 as <-. injection H9 as <-. injection H11 as <-.
  do 5 eexists. repeat split; try reflexivity; assumption.
Qed.

Lemma parse_returns_uncompressed_witness :
  let input := ["F"; "W"; "S"; x08; x0d; x00; x00; x00; x00; x00; x0c;
                x01; x00]%byte in
  let outcome :=
    parse (fun chunk => Ok chunk) (inr (BytesIO_of input))
      (mkSWF [] 4096 None None) in
  outcome = (fst outcome, Ok tt)
  /\ exists h,
      _header (fst outcome) = Some h
      /\ Header.compressed h = false
      /\ Header.frame_count h = Ok 1.
Proof.
  intros input outcome.
  assert (P : outcome = (fst outcome, Ok tt)) by (vm_compute; reflexivity).
  split; [exact P|].
  destruct (parse_returns_uncompressed (fun chunk => Ok chunk)
              (inr (BytesIO_of input)) (mkSWF [] 4096 None None)
              (fst outcome) P)
    as (h & d & r & q & n & H & _ & C & _ & _ & _ & _).
  exists h. split; [exact H | split; [exact C|]].
  assert (E : _header (fst outcome)
              = Some (mkHeader 8 false false 13
                        (Some (mkRect 0 0 0 0)) (Some 3072) (Some 1)))
    by (vm_compute; reflexivity).
  rewrite E in H. injection H as <-. reflexivity.
Defined.

(** X4: a header parsed by [SWFHeader.__init__] has no frame size, rate
    or count: each of the three properties raises AttributeError until its
    setter has been used, and after a setter the property returns the value
    set while the other two are as before. *)
Theorem fresh_header_has_no_frame_fields (s s' : SWFStream) (h : SWFHeader) :
  Header.init s = (s', Ok h) ->
  Header.frame_size h = Err AttributeError
  /\ Header.frame_rate h = Err AttributeError
  /\ Header.frame_count h = Err AttributeError
  /\ (forall r,
        Header.frame_size (Header.set_frame_size h r) = Ok r
        /\ Header.frame_rate (Header.set_frame_size h r) = Err AttributeError
        /\ Header.frame_count (Header.set_frame_size h r) = Err AttributeError)
  /\ (forall q,
        Header.frame_rate (Header.set_frame_rate h q) = Ok q
        /\ Header.frame_size (Header.set_frame_rate h q) = Err AttributeError
        /\ Header.frame_count (Header.set_frame_rate h q) = Err AttributeError)
  /\ (forall n,
        Header.frame_count (Header.set_frame_count h n) = Ok n
        /\ Header.frame_size (Header.set_frame_count h n) = Err AttributeError
        /\ Header.frame_rate (Header.set_frame_count h n) = Err AttributeError).
Proof.
  intros I. destruct (init_frame_fields _ _ _ I) as (S & R & C).
  unfold Header.frame_size, Header.frame_rate, Header.frame_count,
    Header.set_frame_size, Header.set_frame_rate, Header.set_frame_count.
  cbn [_frame_size _frame_rate _frame_count].
  rewrite S, R, C. repeat split.
Qed.

Lemma fresh_header_has_no_frame_fields_witness :
  let s := mkStream (BytesIO_of ["F"; "W"; "S"; x08; x10; x00; x00; x00]%byte) in
  Header.init s
  = (mkStream (mkBytesIO ["F"; "W"; "S"; x08; x10; x00; x00; x00]%byte 8),
     Ok (mkHeader 8 false false 16 None None None))
  /\ Header.frame_count (mkHeader 8 false false 16 None None None)
     = Err AttributeError.
Proof.
  intros s.
  assert (E : Header.init s
              = (mkStream
                   (mkBytesIO ["F"; "W"; "S"; x08; x10; x00; x00; x00]%byte 8),
                 Ok (mkHeader 8 false false 16 None None None)))
    by (vm_compute; reflexivity).
  split; [exact E|].
  exact (proj1 (proj2 (proj2 (fresh_header_has_no_frame_fields s _ _ E)))).
Defined.

(** ** Exceptions of [parse] *)

(** X5: on a stream that begins with a zlib or LZMA signature ('C' or
    'Z', then 'W', 'S'), a version above 6 and four length bytes, [parse]
    raises TypeError.  It leaves the document with the parsed header, which
    has no frame fields, and with the raw stream positioned behind the
    header as its data; tags and chunk size are untouched. *)
Theorem parse_compressed_raises
  (pylzma_decompress : bytes -> result bytes) (self : SWF) (s : SWFStream)
  (a v l0 l1 l2 l3 : byte) (post : bytes) :
  unread (f s) = a :: "W"%byte :: "S"%byte :: v :: l0 :: l1 :: l2 :: l3 :: post ->
  6 < ui8 v ->
  a = "C"%byte \/ a = "Z"%byte ->
  exists s',
    unread (f s') = post
    /\ parse pylzma_decompress (inl s) self
       = (mkSWF (tags self) (_chunk_size self) (Some s')
            (Some (mkHeader (ui8 v) (Byte.eqb a "C") (Byte.eqb a "Z")
                     (Stream.le [l0; l1; l2; l3]) None None None)),
          Err TypeError).
Proof.
  intros U V M.
  destruct (init_after_signature s _ _ _ _ _ U) as (s4 & U4 & I).
  assert ((ui8 v >? 6) = true) as G by (apply Z.gtb_lt; lia).
  rewrite G in I.
  destruct (readUI32_unread s4 _ _ _ _ _ U4) as (s8 & E8 & U8).
  exists s8. split; [exact U8|].
  destruct M; subst a; cbn in I;
    rewrite (bind_st_ok _ _ _ _ _ E8) in I; unfold ret in I;
    unfold parse;
    unfold bind_st at 1; cbn [set_data modify _data tags _chunk_size _header];
    rewrite (bind_st_ok _ _ _ _ _ (on_data_ok _ _ _ _ _ _ _ I));
    reflexivity.
Qed.

Lemma parse_compressed_raises_witness :
  unread (f (mkStream (BytesIO_of cws_input)))
  = ["C"; "W"; "S"; x08; x10; x00; x00; x00; x78; x9c]%byte
  /\ 6 < ui8 x08
  /\ ("C"%byte = "C"%byte \/ "C"%byte = "Z"%byte)
  /\ snd (parse (fun chunk => Ok chunk) (inl (mkStream (BytesIO_of cws_input)))
            (mkSWF [] 4096 None None))
     = Err TypeError.
Proof.
  split; [reflexivity | split; [reflexivity | split; [now left|]]].
  destruct (parse_compressed_raises (fun chunk => Ok chunk)
              (mkSWF [] 4096 None None) (mkStream (BytesIO_of cws_input))
              "C" x08 x10 x00 x00 x00 [x78; x9c]%byte
              eq_refl eq_refl (or_introl eq_refl)) as (s' & _ & P).
  now rewrite P.
Defined.

(** X6: when [SWFHeader.__init__] raises on the stream, [parse] raises the
    same exception; the document then has the stream as its data and the
    header it had before the call, and the constructor given that file
    raises the same exception. *)
Theorem parse_header_exception
  (pylzma_decompress : bytes -> result bytes) (self : SWF)
  (io : BytesIO) (s' : SWFStream) (e : exn) (chunk_size : option Z) :
  Header.init (mkStream io) = (s', Err e) ->
  parse pylzma_decompress (inr io) self
  = (mkSWF (tags self) (_chunk_size self) (Some s') (_header self), Err e)
  /\ parse pylzma_decompress (inl (mkStream io)) self
     = (mkSWF (tags self) (_chunk_size self) (Some s') (_header self), Err e)
  /\ SWF_init pylzma_decompress (Some io) chunk_size = Err e.
Proof.
  intros I.
  assert (P : forall self0,
    parse pylzma_decompress (inl (mkStream io)) self0
    = (mkSWF (tags self0) (_chunk_size self0) (Some s') (_header self0), Err e)).
  { intros self0. unfold parse. unfold bind_st at 1.
    cbn [set_data modify]. unfold bind_st, on_data.
    cbn [_data tags _chunk_size _header set_data modify fst].
    now rewrite I. }
  split; [exact (P self) | split; [exact (P self)|]].
  unfold SWF_init. cbn [set_data modify fst option_map _data].
  now rewrite P.
Qed.

Lemma parse_header_exception_witness :
  let io := BytesIO_of ["G"; "I"; "F"; x08; x10; x00; x00; x00]%byte in
  Header.init (mkStream io)
  = (mkStream (mkBytesIO ["G"; "I"; "F"; x08; x10; x00; x00; x00]%byte 4),
     Err HeaderError)
  /\ SWF_init (fun chunk => Ok chunk) (Some io) None = Err HeaderError.
Proof.
  intros io.
  assert (E : Header.init (mkStream io)
              = (mkStream
                   (mkBytesIO ["G"; "I"; "F"; x08; x10; x00; x00; x00]%byte 4),
                 Err HeaderError)) by (vm_compute; reflexivity).
  split; [exact E|].
  exact (proj2 (proj2 (parse_header_exception (fun chunk => Ok chunk)
                         (mkSWF [] 4096 None None) io _ _ None E))).
Defined.

(** ** [export] after [parse] and after the constructor *)

(** X7: once [parse] has been called on a document, whether it returned
    or raised, [export] no longer raises the not-loaded exception: on a
    document that had no tags it raises the no-tags exception, otherwise it
    returns what the exporter returns.  [parse] loads no tags. *)
Theorem export_after_parse
  (pylzma_decompress : bytes -> result bytes)
  (Rendered : Type) (SVGExporter : SWF -> bool -> result Rendered)
  (data : SWFStream + BytesIO) (self : SWF)
  (exporter : option (SWF -> bool -> result Rendered)) (force_stroke : bool) :
  let parsed := fst (parse pylzma_decompress data self) in
  tags parsed = tags self
  /\ export Rendered SVGExporter parsed exporter force_stroke
     = match tags self with
       | [] => Err EmptyDocumentError
       | _ :: _ => chosen SVGExporter exporter parsed force_stroke
       end.
Proof.
  intros parsed.
  pose proof (parse_keeps_configuration pylzma_decompress data self) as K.
  pose proof (parse_loads pylzma_decompress data self) as D.
  fold parsed in K, D. injection K as T _.
  split; [exact T|].
  unfold export, chosen. rewrite T.
  destruct (_data parsed); [|contradiction].
  destruct (tags self); reflexivity.
Qed.

(** X8: [export] on a document as the constructor returns it always
    raises: the not-loaded exception when no file was given, the no-tags
    exception when one was, whatever the file holds. *)
Theorem constructor_then_export
  (pylzma_decompress : bytes -> result bytes)
  (Rendered : Type) (SVGExporter : SWF -> bool -> result Rendered)
  (file : option BytesIO) (chunk_size : option Z) (self : SWF)
  (exporter : option (SWF -> bool -> result Rendered)) (force_stroke : bool) :
  SWF_init pylzma_decompress file chunk_size = Ok self ->
  export Rendered SVGExporter self exporter force_stroke
  = Err match file with
        | None => NotLoadedError
        | Some _ => EmptyDocumentError
        end.
Proof.
  intros H. destruct (constructed_document _ _ _ _ H) as [K D].
  injection K as T _. unfold export. rewrite T.
  destruct (_data self) as [d|], file as [io|]; try reflexivity.
  - destruct D as [_ D]. now specialize (D eq_refl).
  - destruct D as [D _]. now specialize (D eq_refl).
Qed.

Lemma constructor_then_export_witness :
  let io := BytesIO_of ["F"; "W"; "S"; x08; x0d; x00; x00; x00; x00; x00;
                        x0c; x01; x00; x40; x00; x00; x00]%byte in
  (exists self, SWF_init (fun chunk => Ok chunk) (Some io) None = Ok self
                /\ export bytes (fun _ _ => Ok []) self None false
                   = Err EmptyDocumentError)
  /\ export bytes (fun _ _ => Ok []) (mkSWF [] 4096 None None) None true
     = Err NotLoadedError.
Proof.
  intros io. split.
  - eexists. split; [vm_compute; reflexivity|].
    apply (constructor_then_export (fun chunk => Ok chunk) bytes
             (fun _ _ => Ok []) (Some io) None).
    vm_compute. reflexivity.
  - apply (constructor_then_export (fun chunk => Ok chunk) bytes
             (fun _ _ => Ok []) None (Some 1)).
    reflexivity.
Defined.

(** ** [save] on any document *)

(** X9: [save] returns normally on no document at all.  Without a header
    it raises AttributeError and the file is untouched; with a header it
    leaves the file as [SWFHeader.save] alone leaves it, so nothing of the
    frame fields or the tags is ever written, for a compressed header and
    for an uncompressed one alike. *)
Theorem save_never_returns
  (writeRECT : SWFStream -> SWFRectangle -> st BytesIO unit)
  (save_tags : SWF -> SWFStream -> st BytesIO unit)
  (pylzma_compress : bytes -> result bytes)
  (self : SWF) (sink : BytesIO) :
  (exists e, snd (save writeRECT save_tags pylzma_compress self sink) = Err e)
  /\ fst (save writeRECT save_tags pylzma_compress self sink)
     = match _header self with
       | None => sink
       | Some h => fst (Header.save h (_data self) sink)
       end
  /\ (_header self = None ->
      snd (save writeRECT save_tags pylzma_compress self sink)
      = Err AttributeError).
Proof.
  split; [apply save_always_raises|].
  destruct (_header self) as [h|] eqn:H.
  - rewrite (save_stops_after_header _ _ _ self h sink H).
    split; [reflexivity | discriminate].
  - unfold save, bind_st, lift. rewrite H. cbn. auto.
Qed.

Lemma save_never_returns_witness :
  save (fun _ _ => ret tt) (fun _ _ => ret tt) (fun chunk => Ok chunk)
    (mkSWF [] 4096 None None) (BytesIO_of ["x"%byte])
  = (BytesIO_of ["x"%byte], Err AttributeError).
Proof.
  pose proof (save_never_returns (fun _ _ => ret tt) (fun _ _ => ret tt)
                (fun chunk => Ok chunk) (mkSWF [] 4096 None None)
                (BytesIO_of ["x"%byte])) as (_ & F & E).
  specialize (E eq_refl). cbn [_header] in F.
  destruct (save _ _ _ _ _) as [io r]. cbn [fst snd] in *. now subst.
Defined.

(** ** The constructor on an uncompressed file *)

(** X10: given a file that holds "FWS", a version above 6, four length
    bytes, a rectangle, two rate bytes, two frame-count bytes and then any
    bytes at all, the constructor returns a document whose header carries
    the version, the little-endian length, the decoded rectangle, the rate
    and the little-endian frame count, and whose data stream is positioned
    at the first byte behind the frame count: the tag bytes are left
    unread. *)
Theorem constructor_stops_at_first_tag
  (pylzma_decompress : bytes -> result bytes)
  (v l0 l1 l2 l3 r0 q0 q1 n0 n1 : byte) (rect post : bytes)
  (chunk_size : option Z) :
  6 < ui8 v ->
  length (r0 :: rect) = Stream.rect_size r0 ->
  exists d,
    unread (f d) = post
    /\ SWF_init pylzma_decompress
         (Some (BytesIO_of
                  (["F"; "W"; "S"; v; l0; l1; l2; l3]%byte
                     ++ (r0 :: rect) ++ [q0; q1; n0; n1] ++ post)))
         chunk_size
       = Ok (mkSWF [] 4096 (Some d)
               (Some (mkHeader (ui8 v) false false
                        (Stream.le [l0; l1; l2; l3])
                        (Some (Stream.decodeRECT (r0 :: rect)))
                        (Some (Stream.le [q0; q1]))
                        (Some (Stream.le [n0; n1]))))).
Proof.
  intros V L.
  destruct (parse_uncompressed pylzma_decompress
              (mkSWF [] 4096
                 (Some (mkStream
                          (BytesIO_of
                             (["F"; "W"; "S"; v; l0; l1; l2; l3]%byte
                                ++ (r0 :: rect) ++ [q0; q1; n0; n1] ++ post))))
                 None)
              (mkStream
                 (BytesIO_of
                    (["F"; "W"; "S"; v; l0; l1; l2; l3]%byte
                       ++ (r0 :: rect) ++ [q0; q1; n0; n1] ++ post)))
              v l0 l1 l2 l3 r0 q0 q1 n0 n1 rect post eq_refl V L)
    as (d & U & P).
  cbn [tags _chunk_size] in P.
  exists d. split; [exact U|].
  unfold SWF_init.
  cbn [set_data modify fst option_map _data tags _chunk_size _header].
  now rewrite P.
Qed.

Lemma constructor_stops_at_first_tag_witness :
  6 < ui8 x0a
  /\ length [x00] = Stream.rect_size x00
  /\ exists d,
      unread (f d) = [x40; x00; x00; x00]%byte
      /\ SWF_init (fun chunk => Ok chunk)
           (Some (BytesIO_of
                    ["F"; "W"; "S"; x0a; x11; x00; x00; x00; x00; x00; x18;
                     x01; x00; x40; x00; x00; x00]%byte))
           (Some 16)
         = Ok (mkSWF [] 4096 (Some d)
                 (Some (mkHeader 10 false false 17
                          (Some (mkRect 0 0 0 0)) (Some 6144) (Some 1)))).
Proof.
  split; [reflexivity | split; [reflexivity|]].
  exact (constructor_stops_at_first_tag (fun chunk => Ok chunk)
           x0a x11 x00 x00 x00 x00 x00 x18 x01 x00 []
           [x40; x00; x00; x00]%byte (Some 16) eq_refl eq_refl).
Defined.

(** ** Both version buckets, as coded *)

(** [SWFHeader.__init__] once the signature test has passed with flags
    [zl] and [lz]: the invalid-signature exception is out of the question,
    and with four more bytes the header is returned. *)
Lemma init_after_flags (s4 : SWFStream) (version : Z) (zl lz : bool) :
  let rest_of_init :=
    bind_st (ret (zl, lz))
      (fun flags =>
         bind_st Stream.readUI32
           (fun file_length =>
              ret (mkHeader version (fst flags) (snd flags) file_length
                     None None None))) in
  snd (rest_of_init s4) <> Err HeaderError
  /\ forall l0 l1 l2 l3 post,
      unread (f s4) = l0 :: l1 :: l2 :: l3 :: post ->
      exists s',
        rest_of_init s4
        = (s', Ok (mkHeader version zl lz (Stream.le [l0; l1; l2; l3])
                     None None None))
        /\ unread (f s') = post.
Proof.
  intros rest_of_init. subst rest_of_init. split.
  - unfold bind_st at 1, ret at 1. unfold bind_st.
    destruct (readUI32_outcome s4) as [[x H] | H];
      destruct (Stream.readUI32 s4) as [s5 [x'|e]]; cbn in *;
      unfold HeaderError; congruence.
  - intros l0 l1 l2 l3 post U.
    destruct (readUI32_unread s4 _ _ _ _ _ U) as (s8 & E8 & U8).
    exists s8. unfold bind_st at 1, ret at 1.
    rewrite (bind_st_ok _ _ _ _ _ E8). unfold ret. split; [reflexivity|exact U8].
Qed.

(** X11: for a version byte of 6 or less, [SWFHeader.__init__] raises the
    invalid-signature exception exactly on the byte triples outside
    ('C', 'W', marker), marker 'S', 'C' or 'Z'; on those three it never
    raises it, and with the four length bytes present it returns a header
    of kind none, zlib or lzma by the marker, with the version and the
    little-endian length, the stream left behind the eighth byte. *)
Theorem legacy_signature_exhaustive
  (s : SWFStream) (a b c v : byte) (rest : bytes) :
  unread (f s) = a :: b :: c :: v :: rest ->
  ui8 v <= 6 ->
  match lookup_signature legacy_mapping_as_coded a b c with
  | None => snd (Header.init s) = Err HeaderError
  | Some k =>
      snd (Header.init s) <> Err HeaderError
      /\ forall l0 l1 l2 l3 post,
          rest = l0 :: l1 :: l2 :: l3 :: post ->
          exists s' h,
            Header.init s = (s', Ok h)
            /\ kind_of h = k
            /\ _version h = ui8 v
            /\ _file_length h = Stream.le [l0; l1; l2; l3]
            /\ unread (f s') = post
  end.
Proof.
  intros U V.
  destruct (init_after_signature s a b c v rest U) as (s4 & U4 & ->).
  assert ((ui8 v >? 6) = false) as ->.
  { destruct (Z.gtb_spec (ui8 v) 6); [lia | reflexivity]. }
  bytes_tests. cbn [legacy_mapping_as_coded lookup_signature].
  split_byte_tests; cbn [negb orb andb Byte.eqb]; try reflexivity;
    match goal with
    | |- context [ret (?zl, ?lz)] =>
        destruct (init_after_flags s4 (ui8 v) zl lz) as [N A]
    end;
    (split; [exact N|]);
    intros l0 l1 l2 l3 post ->;
    destruct (A _ _ _ _ _ U4) as (s' & Init & U');
    exists s'; eexists; (split; [exact Init|]); repeat split; exact U'.
Qed.

Lemma legacy_signature_exhaustive_witness :
  let s := mkStream (BytesIO_of ["C"; "W"; "C"; x06; x10; x00; x00; x00]%byte) in
  unread (f s) = ["C"; "W"; "C"; x06; x10; x00; x00; x00]%byte
  /\ ui8 x06 <= 6
  /\ snd (Header.init s) <> Err HeaderError.
Proof.
  intros s.
  assert (V : ui8 x06 <= 6) by discriminate.
  split; [reflexivity | split; [exact V|]].
  exact (proj1 (legacy_signature_exhaustive s "C" "W" "C" x06
                  [x10; x00; x00; x00]%byte eq_refl V)).
Defined.

(** X12: for every header [SWFHeader.__init__] returns, from either
    version bucket, [SWFHeader.save] on a file positioned at its end
    returns normally and appends, for a version above 6, the first
    signature byte, the version byte and the four length bytes exactly as
    they were read, and nothing at all for a version of 6 or less.  The
    second and third signature byte are written in neither case. *)
Theorem header_save_after_parse
  (s s' : SWFStream) (h : SWFHeader) (a b c v l0 l1 l2 l3 : byte)
  (post : bytes) (sink : BytesIO) :
  unread (f s) = a :: b :: c :: v :: l0 :: l1 :: l2 :: l3 :: post ->
  Header.init s = (s', Ok h) ->
  at_end sink ->
  exists sink',
    Header.save h (Some s') sink = (sink', Ok tt)
    /\ getvalue sink'
       = getvalue sink
           ++ (if ui8 v >? 6 then [a; v; l0; l1; l2; l3] else []).
Proof.
  intros U I A.
  destruct (init_after_signature s a b c v _ U) as (s4 & U4 & E).
  rewrite E in I. clear E.
  destruct (ui8 v >? 6) eqn:G; revert I; bytes_tests;
    split_byte_tests; cbn [negb orb andb]; intros I;
    try (cbn in I; discriminate);
    match type of I with
    | context [ret (?zl, ?lz)] =>
        destruct (init_after_flags s4 (ui8 v) zl lz) as [_ F]
    end;
    destruct (F _ _ _ _ _ U4) as (s8 & E8 & _);
    set (len := Stream.le [l0; l1; l2; l3]) in *;
    rewrite E8 in I; injection I as <- <-;
    unfold Header.save;
    cbn [_version _compressed_zlib _compressed_lzma _file_length Byte.eqb];
    rewrite G; try (eexists; split; [reflexivity | now rewrite app_nil_r]);
    unfold lift, attr, bind_st, Stream.writeUI8, Stream.writeUI32, modify;
    eexists; (split; [reflexivity|]);
    rewrite !write_at_end by (repeat apply at_end_write; exact A);
    cbn [getvalue]; rewrite <- !app_assoc; cbn [app]; subst len;
    rewrite byte_of_ui8, ui32_bytes; reflexivity.
Qed.

Lemma header_save_after_parse_witness :
  let s := mkStream (BytesIO_of ["C"; "W"; "S"; x09; x2a; x01; x00; x00]%byte) in
  let s' := mkStream (mkBytesIO ["C"; "W"; "S"; x09; x2a; x01; x00; x00]%byte 8) in
  let h := mkHeader 9 true false 298 None None None in
  Header.init s = (s', Ok h)
  /\ at_end (BytesIO_of [])
  /\ exists sink',
      Header.save h (Some s') (BytesIO_of []) = (sink', Ok tt)
      /\ getvalue sink' = ["C"; x09; x2a; x01; x00; x00]%byte.
Proof.
  intros s s' h.
  assert (I : Header.init s = (s', Ok h)) by (vm_compute; reflexivity).
  split; [exact I | split; [reflexivity|]].
  exact (header_save_after_parse s s' h "C" "W" "S" x09 x2a x01 x00 x00 []
           (BytesIO_of []) eq_refl I eq_refl).
Defined.
